(** * Chaotic stream cipher: a shallow embedding of [chaotic_cipher.py]

    The development follows the two functions of the program:
    [gauss_map_keygen] (the keystream generator) and
    [chaotic_encrypt_decrypt] (the XOR transform over files).

    Floating-point values are IEEE-754 binary64 numbers, represented by the
    Standard Library's [spec_float] with its correctly rounded operations.
    Python exceptions are explicit: every operation that can raise returns a
    [result].  The two library functions the program calls but does not
    define, the exponential ([np.exp]) and the C power function behind
    [x**2], are Section variables: every theorem holds for any of them.
    Integers are unbounded and memory is not limited: [bytearray] fails only
    on a negative count.

    The files are a map from paths to contents.  Whether the operating
    system lets a path be opened, for reading or for writing, is a parameter
    ([os]) with a fixed answer per path; a write that was let through
    stores all its bytes.  [main] runs on a world of input lines, output and
    files; an exception it does not catch, [EOFError] of [input] included,
    ends it. *)

From Stdlib Require Import ZArith Bool Lia.
From Stdlib Require Import SpecFloat.
From stdpp Require Import base list strings gmap.

Open Scope Z_scope.

(* ===================================================================== *)
(** ** Binary64 arithmetic                                                *)
(* ===================================================================== *)

Module F64.

Definition prec : Z := 53.
Definition emax : Z := 1024.

Definition add : spec_float -> spec_float -> spec_float := SFadd prec emax.
Definition mul : spec_float -> spec_float -> spec_float := SFmul prec emax.
Definition sub : spec_float -> spec_float -> spec_float := SFsub prec emax.
Definition div : spec_float -> spec_float -> spec_float := SFdiv prec emax.
Definition opp : spec_float -> spec_float := SFopp.
Definition abs : spec_float -> spec_float := SFabs.

(** The float a Python [int] literal converts to. *)
Definition of_Z (z : Z) : spec_float := binary_normalize prec emax z 0 false.

Definition one : spec_float := Eval cbv in of_Z 1.
Definition two : spec_float := Eval cbv in of_Z 2.
Definition c256 : spec_float := Eval cbv in of_Z 256.

Definition is_inf (v : spec_float) : bool :=
  match v with S754_infinity _ => true | _ => false end.

Definition is_finite (v : spec_float) : bool :=
  match v with
  | S754_zero _ | S754_finite _ _ _ => true
  | _ => false
  end.

(** A value of the binary64 format: the mantissa and exponent of a finite
    number are in the format's range. *)
Definition valid (v : spec_float) : bool := valid_binary prec emax v.

(** Rounding toward zero to an integer: the magnitude [m * 2^e] loses its
    fractional bits, then the sign is applied. *)
Definition trunc (v : spec_float) : Z :=
  match v with
  | S754_finite s m e => cond_Zopp s (Z.shiftl (Zpos m) e)
  | _ => 0
  end.

(** Rounding toward minus infinity to an integer. *)
Definition floor (v : spec_float) : Z :=
  match v with
  | S754_finite s m e => Z.shiftl (cond_Zopp s (Zpos m)) e
  | _ => 0
  end.

(** The sign bit. *)
Definition signbit (v : spec_float) : bool :=
  match v with
  | S754_zero s | S754_infinity s | S754_finite s _ _ => s
  | S754_nan => false
  end.

(** The finite number is an integer: no fractional bit is set. *)
Definition is_integer (v : spec_float) : bool :=
  match v with
  | S754_finite _ m e => Z.shiftl (Z.shiftl (Zpos m) e) (- e) =? Zpos m
  | S754_zero _ => true
  | _ => false
  end.

End F64.

Abbreviation float := spec_float.

(* ===================================================================== *)
(** ** Python exceptions and results                                      *)
(* ===================================================================== *)

(** The exceptions the program can meet; the three after
    [FileNotFoundError] come from [open] and [input]. *)
Inductive exn : Set :=
| OverflowError
| ValueError
| IndexError
| FileNotFoundError
| IsADirectoryError
| PermissionError
| EOFError.

Inductive result (A : Type) : Type :=
| Ok (a : A)
| Raise (e : exn).

Arguments Ok {A} a.
Arguments Raise {A} e.

#[global] Instance result_ret : MRet result := fun _ a => Ok a.

#[global] Instance result_bind : MBind result := fun _ _ k r =>
  match r with
  | Ok a => k a
  | Raise e => Raise e
  end.

Definition is_ok {A : Type} (r : result A) : bool :=
  match r with Ok _ => true | Raise _ => false end.

(* ===================================================================== *)
(** ** Python values of the program                                       *)
(* ===================================================================== *)

(** The state [x] of the generator holds a Python [float] on entry (the
    parameter [x0]) and a [numpy.float64] after the first update, since
    [np.exp] returns a NumPy scalar.  The two types share the binary64 value
    but not the behaviour of [**] on overflow. *)
Inductive pynum : Set :=
| PyFloat (v : float)
| NpFloat64 (v : float).

Definition value (x : pynum) : float :=
  match x with PyFloat v | NpFloat64 v => v end.

(** Binary arithmetic on two numbers: a [float] with a [float] gives a
    [float], anything with a [numpy.float64] gives a [numpy.float64].  None of
    [+], [*], [/] raises on overflow (division by zero does not occur in the
    program: the only divisor is the literal 2). *)
Definition arith (op : float -> float -> float) (x y : pynum) : pynum :=
  match x, y with
  | PyFloat a, PyFloat b => PyFloat (op a b)
  | _, _ => NpFloat64 (op (value x) (value y))
  end.

Definition py_neg (x : pynum) : pynum :=
  match x with
  | PyFloat v => PyFloat (F64.opp v)
  | NpFloat64 v => NpFloat64 (F64.opp v)
  end.

(** [int(x)]: truncation toward zero; infinities raise [OverflowError] and NaN
    raises [ValueError], for a [float] and for a [numpy.float64] alike. *)
Definition py_int (x : pynum) : result Z :=
  match value x with
  | S754_nan => Raise ValueError
  | S754_infinity _ => Raise OverflowError
  | v => Ok (F64.trunc v)
  end.

(** A byte is an integer in [range(256)]. *)
Definition is_byte (b : Z) : bool := (0 <=? b) && (b <? 256).

Definition is_bytes (l : list Z) : bool := forallb is_byte l.

(** [bytearray(length)]: a zero-filled buffer; a negative count raises
    [ValueError]. *)
Definition bytearray (length : Z) : result (list Z) :=
  if length <? 0 then Raise ValueError
  else Ok (replicate (Z.to_nat length) 0).

(** [key[i] = v] on a [bytearray], for a non-negative index: [IndexError] out
    of range, [ValueError] when [v] is not in [range(256)]. *)
Definition setitem (key : list Z) (i : nat) (v : Z) : result (list Z) :=
  if (i <? length key)%nat
  then if is_byte v then Ok (<[i := v]> key) else Raise ValueError
  else Raise IndexError.

(** [bytes(iterable)]: [ValueError] when an item is not in [range(256)]. *)
Definition bytes_of (l : list Z) : result (list Z) :=
  if is_bytes l then Ok l else Raise ValueError.

(** [range(length)]: empty for a non-positive [length]. *)
Definition range (length : Z) : list nat := seq 0 (Z.to_nat length).

(* ===================================================================== *)
(** ** The keystream generator                                            *)
(* ===================================================================== *)

Section Generator.

(** [np.exp] on a scalar, as a function on binary64 values. *)
Variable libm_exp : float -> float.

(** The C library's [pow(v, 2.0)], which both [float.__pow__] and
    [numpy.float64.__pow__] call for [v ** 2]. *)
Variable libm_pow2 : float -> float.

(** [v ** 2] on a Python [float] ([float_pow] of the interpreter with the
    exponent 2.0).  The interpreter settles NaN, the infinities, zero and one
    itself, replaces a negative base by its absolute value (the exponent is
    even, so the result is not negated), calls [pow] and raises
    [OverflowError] when the result is infinite.  The C library is taken to
    report no other error on a positive finite base: an underflow to zero is
    cleared by the interpreter and is not an error. *)
Definition float_pow2 (v : float) : result float :=
  match v with
  | S754_nan => Ok S754_nan
  | S754_infinity _ => Ok (S754_infinity false)
  | S754_zero _ => Ok (S754_zero false)
  | S754_finite _ _ _ =>
      let iv := F64.abs v in
      if SFeqb iv F64.one then Ok F64.one
      else
        let ix := libm_pow2 iv in
        if F64.is_inf ix then Raise OverflowError else Ok ix
  end.

(** [x ** 2]: on a [numpy.float64] an overflow is a warning and the result
    is the infinity [pow] returned. *)
Definition py_pow2 (x : pynum) : result pynum :=
  match x with
  | PyFloat v => r ← float_pow2 v; Ok (PyFloat r)
  | NpFloat64 v => Ok (NpFloat64 (libm_pow2 v))
  end.

(** [np.exp(x)]: always a [numpy.float64]. *)
Definition np_exp (x : pynum) : pynum := NpFloat64 (libm_exp (value x)).

Section Run.

Variables alpha beta : float.

(** Line 18: [x = np.exp(-alpha * x**2) + beta]. *)
Definition gauss_update (x : pynum) : result pynum :=
  sq ← py_pow2 x;
  Ok (arith F64.add
        (np_exp (arith F64.mul (py_neg (PyFloat alpha)) sq))
        (PyFloat beta)).

(** The operand of [int] on line 20: [((x + 1)/2) * 256]. *)
Definition scaled (x : pynum) : pynum :=
  arith F64.mul
    (arith F64.div (arith F64.add x (PyFloat F64.one)) (PyFloat F64.two))
    (PyFloat F64.c256).

(** The right-hand side of line 20: [int(((x + 1)/2) * 256) & 0xFF]. *)
Definition byte_value (x : pynum) : result Z :=
  n ← py_int (scaled x);
  Ok (Z.land n 255).

(** One pass through the loop body, lines 18 and 20. *)
Definition body (i : nat) (x : pynum) (key : list Z)
  : result (pynum * list Z) :=
  x' ← gauss_update x;
  v ← byte_value x';
  key' ← setitem key i v;
  Ok (x', key').

(** [for i in range(length): ...] over the remaining indices. *)
Fixpoint loop (idx : list nat) (x : pynum) (key : list Z)
  : result (pynum * list Z) :=
  match idx with
  | [] => Ok (x, key)
  | i :: idx' =>
      '(x', key') ← body i x key;
      loop idx' x' key'
  end.

End Run.

(** [gauss_map_keygen(length, x0, alpha, beta)]. *)
Definition gauss_map_keygen (length : Z) (x0 alpha beta : float)
  : result (list Z) :=
  key ← bytearray length;
  '(_, key') ← loop alpha beta (range length) (PyFloat x0) key;
  Ok key'.

End Generator.

(* ===================================================================== *)
(** ** A reference instance of the two library functions                  *)
(* ===================================================================== *)

(** The theorems below hold for every exponential and every square.  To
    evaluate the generator on concrete inputs, this module fixes one of each:
    the correctly rounded product [v * v], and an exponential computed in
    fixed-point integer arithmetic with [fbits] fractional bits (argument
    reduction by multiples of [ln 2], then the Taylor series) and rounded to
    binary64.  It returns exactly 1 at the zeros, as the C standard asks. *)
Module RefLibm.

Definition pow2 (v : float) : float := F64.mul v v.

Definition fbits : Z := 192.

(** [ln 2 = 2 * atanh (1/3)], by its series in powers of [1/9]. *)
Fixpoint ln2_series (n : nat) (j pw acc : Z) : Z :=
  match n with
  | O => acc
  | S n' => ln2_series n' (j + 1) (pw / 9) (acc + pw / (2 * j + 1))
  end.

Definition ln2 : Z := Eval vm_compute in 2 * ln2_series 80 0 (2 ^ fbits / 3) 0.

(** The Taylor series of [exp r], for [r] scaled by [2 ^ fbits]. *)
Fixpoint exp_series (n : nat) (r j term acc : Z) : Z :=
  match n with
  | O => acc
  | S n' =>
      let term' := Z.shiftr (term * r) fbits / j in
      exp_series n' r (j + 1) term' (acc + term')
  end.

Definition exp (v : float) : float :=
  match v with
  | S754_nan => S754_nan
  | S754_infinity false => S754_infinity false
  | S754_infinity true => S754_zero false
  | S754_zero _ => F64.one
  | S754_finite s m e =>
      if 10 <=? Z.log2 (Zpos m) + e
      then (if s then S754_zero false else S754_infinity false)
      else
        let x := cond_Zopp s (Z.shiftl (Zpos m) (e + fbits)) in
        let k := (2 * x + ln2) / (2 * ln2) in
        let r := x - k * ln2 in
        binary_normalize F64.prec F64.emax
          (exp_series 60 r 1 (2 ^ fbits) (2 ^ fbits)) (k - fbits) false
  end.

End RefLibm.

(* ===================================================================== *)
(** ** The XOR transform                                                  *)
(* ===================================================================== *)

(** The file system the program reads from and writes to: the contents of the
    files that exist, by path. *)
Abbreviation files := (gmap string (list Z)).

(** What the operating system answers when a path is opened, apart from
    the absence of the file itself: the exception [open] raises, if any
    ([FileNotFoundError] for a missing directory, [IsADirectoryError],
    [PermissionError], ...).  The answer depends on the path alone: the
    directories and permissions are those the program finds, and it does not
    change them. *)
Record os : Type := Os {
  open_rb_error : string -> option exn;
  open_wb_error : string -> option exn
}.

(** [open(path, 'rb').read()]: the error of the operating system, or
    [FileNotFoundError] when there is no such file, or the contents. *)
Definition read_file (sys : os) (fs : files) (path : string)
  : result (list Z) :=
  match open_rb_error sys path with
  | Some e => Raise e
  | None =>
      match fs !! path with
      | Some data => Ok data
      | None => Raise FileNotFoundError
      end
  end.

(** [open(path, 'wb').write(data)]: the error of the operating system, or
    the file created or replaced. *)
Definition write_file (sys : os) (fs : files) (path : string)
    (data : list Z) : result files :=
  match open_wb_error sys path with
  | Some e => Raise e
  | None => Ok (<[path := data]> fs)
  end.

Section Transform.

Variable libm_exp : float -> float.
Variable libm_pow2 : float -> float.
Variable sys : os.

(** Lines 37 to 42 of [chaotic_encrypt_decrypt]: from the bytes read to the
    bytes written.  [zip] stops at the shorter of its two arguments. *)
Definition xor_transform (data : list Z) (x0 alpha beta : float)
  : result (list Z) :=
  let length := Z.of_nat (length data) in
  key ← gauss_map_keygen libm_exp libm_pow2 length x0 alpha beta;
  bytes_of (zip_with Z.lxor data key).

(** [chaotic_encrypt_decrypt(input_path, output_path, x0, alpha, beta)]:
    the output file is opened only after the result is computed. *)
Definition chaotic_encrypt_decrypt (fs : files)
    (input_path output_path : string) (x0 alpha beta : float)
  : result files :=
  data ← read_file sys fs input_path;
  res ← xor_transform data x0 alpha beta;
  write_file sys fs output_path res.

End Transform.

(* ===================================================================== *)
(** ** The generator as a transition system                               *)
(* ===================================================================== *)

(** The control points of [gauss_map_keygen] once the buffer is allocated:
    at the head of the loop, between line 18 and line 20, and the two ways
    out. *)
Inductive config : Type :=
| AtHead (i : nat) (x : pynum) (key : list Z)
| AtStore (i : nat) (x : pynum) (key : list Z)
| Returned (key : list Z)
| Raised (e : exn).

Section Steps.

Variable libm_exp : float -> float.
Variable libm_pow2 : float -> float.
Variables alpha beta : float.
Variable n : nat.

Inductive step : config -> config -> Prop :=
| step_update i x key x' :
    (i < n)%nat ->
    gauss_update libm_exp libm_pow2 alpha beta x = Ok x' ->
    step (AtHead i x key) (AtStore i x' key)
| step_update_raise i x key e :
    (i < n)%nat ->
    gauss_update libm_exp libm_pow2 alpha beta x = Raise e ->
    step (AtHead i x key) (Raised e)
| step_store i x key v key' :
    byte_value x = Ok v ->
    setitem key i v = Ok key' ->
    step (AtStore i x key) (AtHead (S i) x key')
| step_int_raise i x key e :
    byte_value x = Raise e ->
    step (AtStore i x key) (Raised e)
| step_store_raise i x key v e :
    byte_value x = Ok v ->
    setitem key i v = Raise e ->
    step (AtStore i x key) (Raised e)
| step_return i x key :
    (n <= i)%nat ->
    step (AtHead i x key) (Returned key).

Definition final (c : config) : Prop :=
  match c with
  | Returned _ | Raised _ => True
  | _ => False
  end.

End Steps.

(** The outcome of a call as a configuration. *)
Definition outcome (r : result (list Z)) : config :=
  match r with
  | Ok key => Returned key
  | Raise e => Raised e
  end.

(** The configuration a loop result stands for. *)
Definition loop_outcome (r : result (pynum * list Z)) : config :=
  match r with
  | Ok (_, key) => Returned key
  | Raise e => Raised e
  end.

(** A complete run of [gauss_map_keygen]: the allocation of the buffer, then
    the loop to a final configuration. *)
Inductive keygen_run (libm_exp libm_pow2 : float -> float)
    (length : Z) (x0 alpha beta : float) : config -> Prop :=
| run_alloc_raise e :
    bytearray length = Raise e ->
    keygen_run libm_exp libm_pow2 length x0 alpha beta (Raised e)
| run_loop key c :
    bytearray length = Ok key ->
    rtc (step libm_exp libm_pow2 alpha beta (Z.to_nat length))
        (AtHead 0 (PyFloat x0) key) c ->
    final c ->
    keygen_run libm_exp libm_pow2 length x0 alpha beta c.

(* ===================================================================== *)
(** ** Iterates of the map                                                *)
(* ===================================================================== *)

Section Orbit.

Variable libm_exp : float -> float.
Variable libm_pow2 : float -> float.
Variables alpha beta : float.

(** The state after [k] passes through line 18, from the state [x]. *)
Fixpoint orbit_from (k : nat) (x : pynum) : result pynum :=
  match k with
  | O => Ok x
  | S k' =>
      x' ← gauss_update libm_exp libm_pow2 alpha beta x;
      orbit_from k' x'
  end.

Definition orbit (x0 : float) (k : nat) : result pynum :=
  orbit_from k (PyFloat x0).

(** The [k]-th iterate exists and its scaled value is finite, so that
    [int] accepts it. *)
Definition iterate_ok (x0 : float) (k : nat) : bool :=
  match orbit x0 k with
  | Ok x => F64.is_finite (value (scaled x))
  | Raise _ => false
  end.

(** Every iterate from the first to the [n]-th is accepted. *)
Definition iterates_ok (x0 : float) (n : nat) : bool :=
  forallb (fun i => iterate_ok x0 (S i)) (seq 0 n).

End Orbit.

(* ===================================================================== *)
(** ** The specification's formulas                                       *)
(* ===================================================================== *)

(** These definitions follow the words of the specification, on plain
    binary64 values; the theorems compare them with the program. *)
Module Spec.

Section Formulas.

Variable libm_exp : float -> float.
Variable libm_pow2 : float -> float.

(** "Update: x = exp(-alpha * x^2) + beta". *)
Definition update (alpha beta x : float) : float :=
  F64.add (libm_exp (F64.mul (F64.opp alpha) (libm_pow2 x))) beta.

(** "Initialize x = x0", then one update per output position. *)
Fixpoint iterate (alpha beta x0 : float) (k : nat) : float :=
  match k with
  | O => x0
  | S k' => update alpha beta (iterate alpha beta x0 k')
  end.

(** "byte_value = floor(((x + 1) / 2) * 256), then reduce modulo 256". *)
Definition scaled (x : float) : float :=
  F64.mul (F64.div (F64.add x F64.one) F64.two) F64.c256.

Definition byte_value (x : float) : Z := F64.floor (scaled x) mod 256.

End Formulas.

(** "the classical logistic map r*x*(1-x)". *)
Definition logistic (r x : float) : float :=
  F64.mul (F64.mul r x) (F64.sub F64.one x).

(** A conforming [pow(v, 2.0)]: the exact results Annex F of the C standard
    gives at NaN, infinity, zero and one, and a result that does not depend
    on the sign of the base, the exponent being even. *)
Definition pow2_conforming (pow2 : float -> float) : Prop :=
  (forall v, pow2 (F64.abs v) = pow2 v) /\
  pow2 S754_nan = S754_nan /\
  pow2 (S754_infinity false) = S754_infinity false /\
  pow2 (S754_zero false) = S754_zero false /\
  pow2 F64.one = F64.one.

End Spec.

(* ===================================================================== *)
(** ** Concrete inputs                                                    *)
(* ===================================================================== *)

(** The binary64 numbers nearest to the decimal literals used below. *)
Module Lit.
(** 0.1 *)
Definition f0_1 : float := S754_finite false 7205759403792794 (-56).
(** 4.9 *)
Definition f4_9 : float := S754_finite false 5516909543528858 (-50).
(** 0.2 *)
Definition f0_2 : float := S754_finite false 7205759403792794 (-55).
(** 1e200 *)
Definition f1e200 : float := S754_finite false 5883593420661338 612.
(** -2.01 *)
Definition fm2_01 : float := S754_finite true 4526117625507348 (-51).
(** 1e308 *)
Definition f1e308 : float := S754_finite false 5010420900022432 971.
(** -100000.0 *)
Definition fm1e5 : float := Eval cbv in F64.of_Z (-100000).
(** 0.0 *)
Definition f0 : float := S754_zero false.
End Lit.

(* ===================================================================== *)
(** ** The command-line driver                                            *)
(* ===================================================================== *)

(** What [main] writes to the terminal: a line by [print], or the prompt of
    an [input], which ends without a newline. *)
Inductive output : Set :=
| Printed (s : string)
| Prompted (s : string).

(** The world [main] runs in: the lines still to be read from the standard
    input, what was written so far (oldest first), and the files. *)
Record world : Type := World {
  stdin : list string;
  stdout : list output;
  disk : files
}.

(** How a step of [main] ends: normally, or with an exception nobody
    caught. *)
Inductive io_result (A : Type) : Type :=
| Done (a : A)
| Uncaught (e : exn).

Arguments Done {A} a.
Arguments Uncaught {A} e.

Definition io (A : Type) : Type := world -> io_result A * world.

#[global] Instance io_ret : MRet io := fun _ a w => (Done a, w).

#[global] Instance io_bind : MBind io := fun _ _ k m w =>
  match m w with
  | (Done a, w') => k a w'
  | (Uncaught e, w') => (Uncaught e, w')
  end.

Definition write (o : output) (w : world) : world :=
  World (stdin w) (stdout w ++ [o]) (disk w).

(** [print(s)]. *)
Definition print (s : string) : io unit :=
  fun w => (Done tt, write (Printed s) w).

(** [input(prompt)]: the prompt is written, then a line is read; at the end
    of the input it raises [EOFError]. *)
Definition input (prompt : string) : io string :=
  fun w =>
    let w' := write (Prompted prompt) w in
    match stdin w' with
    | [] => (Uncaught EOFError, w')
    | line :: rest => (Done line, World rest (stdout w') (disk w'))
    end.

(** [-1 < x0 < 1], the two comparisons of a [float] with an [int]. *)
Definition x0_in_range (x0 : float) : bool :=
  SFltb (F64.of_Z (-1)) x0 && SFltb x0 (F64.of_Z 1).

(** The texts of [main]. *)
Module Msg.
Definition nl : string := String (Ascii.ascii_of_nat 10) EmptyString.
Definition banner : string :=
  "=== Chaotic Map (Gauss) Stream Cipher Demo ===".
Definition scheme : string :=
  "This script uses a simple XOR-based scheme with a Gauss map keystream.".
Definition disclaimer : string :=
  "Disclaimer: Not secure for real-world cryptography." +:+ nl.
Definition ask_mode : string := "Enter mode (encrypt/decrypt): ".
Definition bad_mode : string := "Invalid mode. Use 'encrypt' or 'decrypt'.".
Definition ask_input : string := "Enter path to input file: ".
Definition ask_output : string := "Enter path to output file: ".
Definition ask_x0 : string := "Enter Gauss map seed x0 (-1 < x0 < 1): ".
Definition ask_alpha : string :=
  "Enter Gauss map parameter alpha (1 <= alpha <= 10) (e.g., 4.9): ".
Definition ask_beta : string :=
  "Enter Gauss map parameter beta (-0.5 <= beta <= 0.5) (e.g., 0.2): ".
Definition bad_number : string :=
  "Invalid x0, alpha, or beta. Must be float.".
Definition bad_x0 : string := "x0 must be between -1 and 1.".
Definition finished (mode output_file : string) : string :=
  nl +:+ "Done. "
  +:+ (if String.eqb mode "encrypt" then "Encrypted" else "Decrypted")
  +:+ " file saved to '" +:+ output_file +:+ "'.".
End Msg.

Section Main.

Variable libm_exp : float -> float.
Variable libm_pow2 : float -> float.
Variable sys : os.

(** [str.strip] and [str.lower]. *)
Variable str_strip : string -> string.
Variable str_lower : string -> string.

(** [float(s)]: [None] stands for its [ValueError]. *)
Variable py_float : string -> option float.

(** The call on line 75: the files change only if the call returns. *)
Definition call_cipher (input_file output_file : string)
    (x0 alpha beta : float) : io unit :=
  fun w =>
    match chaotic_encrypt_decrypt libm_exp libm_pow2 sys (disk w)
            input_file output_file x0 alpha beta with
    | Ok fs' => (Done tt, World (stdin w) (stdout w) fs')
    | Raise e => (Uncaught e, w)
    end.

(** [float(input(prompt).strip())] inside the [try]: the [ValueError] of
    [float] is the one the [except] clause catches. *)
Definition read_float (prompt : string) : io (option float) :=
  line ← input prompt;
  mret (py_float (str_strip line)).

(** Lines 58 to 77 of [main], once the mode is accepted. *)
Definition main_body (mode : string) : io unit :=
  input_line ← input Msg.ask_input;
  let input_file := str_strip input_line in
  output_line ← input Msg.ask_output;
  let output_file := str_strip output_line in
  ox0 ← read_float Msg.ask_x0;
  match ox0 with
  | None => print Msg.bad_number
  | Some x0 =>
      oalpha ← read_float Msg.ask_alpha;
      match oalpha with
      | None => print Msg.bad_number
      | Some alpha =>
          obeta ← read_float Msg.ask_beta;
          match obeta with
          | None => print Msg.bad_number
          | Some beta =>
              if negb (x0_in_range x0) then print Msg.bad_x0
              else
                _ ← call_cipher input_file output_file x0 alpha beta;
                print (Msg.finished mode output_file)
          end
      end
  end.

(** The mode is one of the two words. *)
Definition mode_ok (mode : string) : bool :=
  String.eqb mode "encrypt" || String.eqb mode "decrypt".

(** The answers of a session that reaches the call on line 75: an accepted
    mode (first line), three numbers that parse (fourth to sixth line) and a
    seed within the guard. *)
Definition accepted (l0 l3 l4 l5 : string) (x0 alpha beta : float) : Prop :=
  mode_ok (str_lower (str_strip l0)) = true /\
  py_float (str_strip l3) = Some x0 /\
  py_float (str_strip l4) = Some alpha /\
  py_float (str_strip l5) = Some beta /\
  x0_in_range x0 = true.

(** [main()]. *)
Definition main : io unit :=
  _ ← print Msg.banner;
  _ ← print Msg.scheme;
  _ ← print Msg.disclaimer;
  mode_line ← input Msg.ask_mode;
  let mode := str_lower (str_strip mode_line) in
  if negb (mode_ok mode) then print Msg.bad_mode
  else main_body mode.

End Main.

(** ASCII versions of [str.strip] and [str.lower], and [float] on the few
    literals used below, to run [main] on concrete inputs. *)
Module RefPy.

Definition is_space (c : Ascii.ascii) : bool :=
  let n := Ascii.nat_of_ascii c in
  ((9 <=? n) && (n <=? 13) || (28 <=? n) && (n <=? 32))%nat.

Fixpoint lstrip (s : string) : string :=
  match s with
  | String c s' => if is_space c then lstrip s' else s
  | EmptyString => EmptyString
  end.

Fixpoint rstrip (s : string) : string :=
  match s with
  | EmptyString => EmptyString
  | String c s' =>
      match rstrip s' with
      | EmptyString => if is_space c then EmptyString else String c EmptyString
      | r => String c r
      end
  end.

Definition strip (s : string) : string := rstrip (lstrip s).

Definition lower_char (c : Ascii.ascii) : Ascii.ascii :=
  let n := Ascii.nat_of_ascii c in
  if ((65 <=? n) && (n <=? 90))%nat then Ascii.ascii_of_nat (n + 32) else c.

Fixpoint lower (s : string) : string :=
  match s with
  | EmptyString => EmptyString
  | String c s' => String (lower_char c) (lower s')
  end.

Definition float_of (s : string) : option float :=
  if String.eqb s "0.1" then Some Lit.f0_1
  else if String.eqb s "4.9" then Some Lit.f4_9
  else if String.eqb s "0.2" then Some Lit.f0_2
  else if String.eqb s "-2.01" then Some Lit.fm2_01
  else if String.eqb s "1e308" then Some Lit.f1e308
  else None.

End RefPy.

(** A file system with one file of three bytes, and sessions of [main] on
    it, to run the program on concrete inputs. *)
Module Demo.

Definition fs0 : files := {[ "a.bin"%string := [0; 255; 66] ]}.

(** An operating system with one directory, [out], and no directory
    [nodir]: [out] cannot be opened as a file, and no file can be created in
    [nodir]. *)
Definition sys0 : os :=
  Os (fun path =>
        if String.eqb path "out" then Some IsADirectoryError else None)
     (fun path =>
        if String.eqb path "out" then Some IsADirectoryError
        else if String.eqb path "nodir/b.bin" then Some FileNotFoundError
        else None).

Definition run : io unit :=
  main RefLibm.exp RefLibm.pow2 sys0 RefPy.strip RefPy.lower RefPy.float_of.

(** Encrypt [a.bin] into [b.bin]; the answers carry blanks and capitals. *)
Definition encrypt_session : world :=
  World [" Encrypt "; "a.bin"; "b.bin "; "0.1"; "4.9"; "0.2"]%string [] fs0.

(** The same with the other mode. *)
Definition decrypt_label_session : world :=
  World ["decrypt"; "a.bin"; "b.bin "; "0.1"; "4.9"; "0.2"]%string [] fs0.

(** A session with a seed outside the guard. *)
Definition bad_seed_session : world :=
  World ["encrypt"; "a.bin"; "b.bin"; "-2.01"; "4.9"; "0.2"]%string [] fs0.

(** A session on a file that does not exist. *)
Definition missing_session : world :=
  World ["encrypt"; "none.bin"; "b.bin"; "0.1"; "4.9"; "0.2"]%string [] fs0.

End Demo.

(* ===================================================================== *)
(** ** Results: inversion of [bind]                                       *)
(* ===================================================================== *)

Lemma bind_Ok {A B : Type} (m : result A) (k : A -> result B) (b : B) :
  m ≫= k = Ok b <-> exists a, m = Ok a /\ k a = Ok b.
Proof.
  destruct m as [a|e]; cbn; split.
  - intros H. exists a. split; [reflexivity | exact H].
  - intros (a' & Ha & Hk). injection Ha as <-. exact Hk.
  - discriminate.
  - intros (a' & Ha & _). discriminate.
Qed.

Lemma bind_Raise {A B : Type} (m : result A) (k : A -> result B) (e : exn) :
  m ≫= k = Raise e <-> m = Raise e \/ exists a, m = Ok a /\ k a = Raise e.
Proof.
  destruct m as [a|e']; cbn; split.
  - intros H. right. exists a. split; [reflexivity | exact H].
  - intros [H | (a' & Ha & Hk)]; [discriminate |].
    injection Ha as <-. exact Hk.
  - intros [= ->]. left. reflexivity.
  - intros [[= ->] | (a' & Ha & _)]; [reflexivity | discriminate].
Qed.

Lemma is_ok_true {A : Type} (r : result A) :
  is_ok r = true <-> exists a, r = Ok a.
Proof.
  destruct r as [a|e]; cbn; split; try discriminate; eauto.
  intros (a & H). discriminate.
Qed.

(** Splits a hypothesis [m ≫= k = Ok b] into its two halves. *)
Ltac inv_bind H :=
  let a := fresh "a" in
  let Ha := fresh "Ha" in
  apply bind_Ok in H; destruct H as (a & Ha & H).

(* ===================================================================== *)
(** ** Bytes                                                              *)
(* ===================================================================== *)

Lemma is_byte_spec (b : Z) : is_byte b = true <-> 0 <= b <= 255.
Proof. unfold is_byte. rewrite andb_true_iff, Z.leb_le, Z.ltb_lt. lia. Qed.

Lemma is_bytes_spec (l : list Z) :
  is_bytes l = true <-> Forall (fun b => 0 <= b <= 255) l.
Proof.
  unfold is_bytes. rewrite forallb_forall, Forall_forall.
  split; intros H b Hb.
  - apply is_byte_spec, H, list_elem_of_In, Hb.
  - apply is_byte_spec, H, list_elem_of_In, Hb.
Qed.

(** Masking with [0xFF] keeps the low 8 bits: the residue modulo 256. *)
Lemma land_255_mod (n : Z) : Z.land n 255 = n mod 256.
Proof. change 255 with (Z.ones 8). rewrite Z.land_ones by lia. reflexivity. Qed.

Lemma land_255_byte (n : Z) : is_byte (Z.land n 255) = true.
Proof.
  apply is_byte_spec. rewrite land_255_mod.
  pose proof (Z.mod_pos_bound n 256). lia.
Qed.

(** The XOR of two bytes is a byte. *)
Lemma lxor_byte (a b : Z) :
  is_byte a = true -> is_byte b = true -> is_byte (Z.lxor a b) = true.
Proof.
  rewrite !is_byte_spec. intros Ha Hb.
  assert (Hnn : 0 <= Z.lxor a b) by (apply Z.lxor_nonneg; lia).
  split; [exact Hnn |].
  destruct (Z.eq_dec (Z.lxor a b) 0) as [-> | Hnz]; [lia |].
  assert (Hlt : Z.lxor a b < 2 ^ 8); [| change (2 ^ 8) with 256 in Hlt; lia].
  apply Z.log2_lt_pow2; [lia |].
  pose proof (Z.log2_lxor a b ltac:(lia) ltac:(lia)) as Hl.
  assert (Z.log2 a < 8).
  { destruct (Z.eq_dec a 0) as [-> | ?]; [cbn; lia |].
    apply Z.log2_lt_pow2; [lia | change (2 ^ 8) with 256; lia]. }
  assert (Z.log2 b < 8).
  { destruct (Z.eq_dec b 0) as [-> | ?]; [cbn; lia |].
    apply Z.log2_lt_pow2; [lia | change (2 ^ 8) with 256; lia]. }
  lia.
Qed.

Lemma lxor_cancel_r (a b : Z) : Z.lxor (Z.lxor a b) b = a.
Proof. rewrite Z.lxor_assoc, Z.lxor_nilpotent, Z.lxor_0_r. reflexivity. Qed.

Lemma is_bytes_zip_lxor (d k : list Z) :
  is_bytes d = true -> is_bytes k = true ->
  is_bytes (zip_with Z.lxor d k) = true.
Proof.
  revert k. induction d as [|a d IH]; intros [|b k]; cbn; try reflexivity.
  rewrite !andb_true_iff. intros [Ha Hd] [Hb Hk].
  split; [apply lxor_byte; assumption | apply IH; assumption].
Qed.

Lemma zip_lxor_cancel (d k : list Z) :
  length d = length k ->
  zip_with Z.lxor (zip_with Z.lxor d k) k = d.
Proof.
  revert k. induction d as [|a d IH]; intros [|b k]; cbn; try discriminate.
  - reflexivity.
  - intros [= Hlen]. rewrite lxor_cancel_r, IH by exact Hlen. reflexivity.
Qed.

Lemma is_bytes_replicate_0 (n : nat) : is_bytes (replicate n 0) = true.
Proof. induction n as [|n IH]; cbn; [reflexivity | exact IH]. Qed.

Lemma is_bytes_insert (key : list Z) (i : nat) (v : Z) :
  is_bytes key = true -> is_byte v = true -> is_bytes (<[i := v]> key) = true.
Proof.
  revert i. induction key as [|b key IH]; intros i; cbn; [reflexivity |].
  rewrite andb_true_iff. intros [Hb Hk] Hv.
  destruct i as [|i]; cbn; rewrite andb_true_iff; split; auto.
Qed.

(* ===================================================================== *)
(** ** Conversion to an integer                                           *)
(* ===================================================================== *)

Lemma value_arith_r (op : float -> float -> float) (x : pynum) (c : float) :
  value (arith op x (PyFloat c)) = op (value x) c.
Proof. destruct x; reflexivity. Qed.

(** The program's operand of [int] is the specification's scaled value. *)
Lemma value_scaled (x : pynum) : value (scaled x) = Spec.scaled (value x).
Proof. unfold scaled, Spec.scaled. rewrite !value_arith_r. reflexivity. Qed.

Lemma py_int_Ok (x : pynum) (n : Z) :
  py_int x = Ok n <->
  F64.is_finite (value x) = true /\ n = F64.trunc (value x).
Proof.
  unfold py_int. destruct (value x); cbn; split;
    try (intros [= <-]; split; reflexivity);
    try (intros [_ ->]; reflexivity);
    try discriminate; intros [? _]; discriminate.
Qed.

Lemma py_int_Raise (x : pynum) (e : exn) :
  py_int x = Raise e ->
  F64.is_finite (value x) = false /\ (e = OverflowError \/ e = ValueError).
Proof.
  unfold py_int. destruct (value x); cbn; try discriminate;
    intros [= <-]; split; auto.
Qed.

Lemma byte_value_Ok (x : pynum) (v : Z) :
  byte_value x = Ok v <->
  F64.is_finite (value (scaled x)) = true /\
  v = Z.land (F64.trunc (value (scaled x))) 255.
Proof.
  unfold byte_value. rewrite bind_Ok. split.
  - intros (n & Hn & [= <-]). apply py_int_Ok in Hn as [Hf ->]. auto.
  - intros [Hf ->]. exists (F64.trunc (value (scaled x))).
    split; [apply py_int_Ok; auto | reflexivity].
Qed.

Lemma byte_value_Raise (x : pynum) (e : exn) :
  byte_value x = Raise e ->
  F64.is_finite (value (scaled x)) = false /\
  (e = OverflowError \/ e = ValueError).
Proof.
  unfold byte_value. rewrite bind_Raise.
  intros [H | (n & _ & H)]; [apply py_int_Raise, H | discriminate].
Qed.

Lemma byte_value_is_ok (x : pynum) :
  is_ok (byte_value x) = F64.is_finite (value (scaled x)).
Proof.
  destruct (byte_value x) as [v|e] eqn:E; cbn; symmetry.
  - apply byte_value_Ok in E. tauto.
  - apply byte_value_Raise in E. tauto.
Qed.

(** An infinite or NaN state has an infinite or NaN scaled value. *)
Lemma scaled_not_finite (x : pynum) :
  F64.is_finite (value x) = false ->
  F64.is_finite (value (scaled x)) = false.
Proof.
  rewrite value_scaled. unfold Spec.scaled.
  destruct (value x) as [s|s| |s m e]; cbn; try discriminate; reflexivity.
Qed.

(** Truncation and floor agree on the non-negative numbers and on the
    integers. *)
Lemma trunc_floor (v : float) :
  F64.signbit v = false \/ F64.is_integer v = true ->
  F64.trunc v = F64.floor v.
Proof.
  destruct v as [s|s| |s m e]; cbn; try reflexivity.
  intros [-> | Hint]; [reflexivity |].
  destruct s; cbn; [| reflexivity].
  apply Z.eqb_eq in Hint.
  destruct (Z_le_gt_dec 0 e) as [He | He].
  - rewrite !Z.shiftl_mul_pow2 by lia. lia.
  - rewrite (Z.shiftl_div_pow2 (Z.neg m)) by lia.
    rewrite Z.shiftl_mul_pow2 in Hint by lia.
    set (q := Z.shiftl (Z.pos m) e) in *.
    assert (Hp : 0 < 2 ^ (- e)) by (apply Z.pow_pos_nonneg; lia).
    change (Z.neg m) with (- Z.pos m). rewrite <- Hint.
    rewrite <- Z.mul_opp_l, Z.div_mul; [reflexivity |].
    apply Z.pow_nonzero; lia.
Qed.

(** Where they differ, truncation is one above the floor. *)
Lemma trunc_floor_neg (v : float) :
  F64.is_finite v = true ->
  F64.signbit v = true -> F64.is_integer v = false ->
  F64.trunc v = F64.floor v + 1.
Proof.
  destruct v as [s|s| |s m e]; cbn; try discriminate.
  intros _ -> Hint. cbn. apply Z.eqb_neq in Hint.
  destruct (Z_le_gt_dec 0 e) as [He | He].
  - exfalso. apply Hint.
    rewrite (Z.shiftl_mul_pow2 (Z.pos m) e), Z.shiftl_div_pow2 by lia.
    rewrite Z.opp_involutive, Z.div_mul; [reflexivity |].
    apply Z.pow_nonzero; lia.
  - rewrite !Z.shiftl_div_pow2 by lia.
    rewrite (Z.shiftl_div_pow2 (Z.pos m) e), Z.shiftl_mul_pow2 in Hint by lia.
    assert (Hp : 0 < 2 ^ (- e)) by (apply Z.pow_pos_nonneg; lia).
    change (Z.neg m) with (- Z.pos m).
    pose proof (Z.div_mod (Z.pos m) (2 ^ (- e)) ltac:(lia)) as Hdm.
    pose proof (Z.mod_pos_bound (Z.pos m) (2 ^ (- e)) Hp) as Hb.
    assert (Hr : Z.pos m mod 2 ^ (- e) <> 0) by lia.
    rewrite (Z.div_opp_l_nz (Z.pos m) (2 ^ (- e)));
      [lia | apply Z.pow_nonzero; lia | exact Hr].
Qed.

(* ===================================================================== *)
(** ** The loop of the generator                                          *)
(* ===================================================================== *)

Lemma setitem_Ok (key : list Z) (i : nat) (v : Z) (key' : list Z) :
  setitem key i v = Ok key' <->
  (i < length key)%nat /\ is_byte v = true /\ key' = <[i := v]> key.
Proof.
  unfold setitem.
  destruct (Nat.ltb_spec i (length key)); destruct (is_byte v); split;
    try discriminate;
    try (intros [= <-]; auto);
    try (intros (? & ? & ->); reflexivity);
    try (intros (? & ? & _); (lia || discriminate)).
Qed.

Lemma forallb_seq_S (f : nat -> bool) (s m : nat) :
  forallb f (seq (S s) m) = forallb (fun j => f (S j)) (seq s m).
Proof.
  revert s. induction m as [|m IH]; intros s; cbn; [reflexivity |].
  rewrite IH. reflexivity.
Qed.

Section Loop.

Variable libm_exp : float -> float.
Variable libm_pow2 : float -> float.
Variables alpha beta : float.

Local Abbreviation update := (gauss_update libm_exp libm_pow2 alpha beta).
Local Abbreviation pass := (body libm_exp libm_pow2 alpha beta).
Local Abbreviation run := (loop libm_exp libm_pow2 alpha beta).
Local Abbreviation iter := (orbit_from libm_exp libm_pow2 alpha beta).

(** Squaring a Python [float] can only raise [OverflowError]. *)
Lemma float_pow2_Raise (v : float) (e : exn) :
  float_pow2 libm_pow2 v = Raise e -> e = OverflowError.
Proof.
  unfold float_pow2. destruct v; try discriminate.
  destruct (SFeqb _ _); [discriminate |].
  destruct (F64.is_inf _); [| discriminate].
  intros [= <-]. reflexivity.
Qed.

Lemma gauss_update_Raise (x : pynum) (e : exn) :
  update x = Raise e -> e = OverflowError.
Proof.
  unfold gauss_update. rewrite bind_Raise.
  intros [H | (sq & _ & H)]; [| discriminate].
  destruct x as [v|v]; cbn in H; [| discriminate].
  apply bind_Raise in H as [H | (r & _ & H)]; [| discriminate].
  eapply float_pow2_Raise, H.
Qed.

(** After an update the state is a [numpy.float64]. *)
Lemma gauss_update_np (x x' : pynum) :
  update x = Ok x' -> exists v, x' = NpFloat64 v.
Proof.
  unfold gauss_update. intros H. inv_bind H.
  injection H as <-. unfold np_exp. cbn. eauto.
Qed.

Lemma body_Ok (i : nat) (x : pynum) (key : list Z) (x' : pynum)
    (key' : list Z) :
  pass i x key = Ok (x', key') <->
  update x = Ok x' /\
  exists v, byte_value x' = Ok v /\ (i < length key)%nat /\
            key' = <[i := v]> key.
Proof.
  unfold body. split.
  - intros H. inv_bind H. rename a into x1. inv_bind H. rename a into v.
    inv_bind H. injection H as <- <-.
    apply setitem_Ok in Ha1 as (Hi & _ & ->). eauto 6.
  - intros (Hu & v & Hv & Hi & ->).
    rewrite Hu. cbn. rewrite Hv. cbn.
    assert (Hs : setitem key i v = Ok (<[i := v]> key)).
    { apply setitem_Ok. repeat split; [exact Hi |].
      apply byte_value_Ok in Hv as [_ ->]. apply land_255_byte. }
    rewrite Hs. reflexivity.
Qed.

(** What a completed loop over the indices [s, s+1, ..., s+m-1] leaves:
    the last state is the [m]-th iterate, the buffer keeps its length, the
    slot of the [j]-th pass holds the byte of the [(j+1)]-th iterate, and the
    slots before [s] are untouched. *)
Lemma loop_seq_Ok (m : nat) : forall (s : nat) (x : pynum) (key : list Z)
    (x' : pynum) (key' : list Z),
  run (seq s m) x key = Ok (x', key') ->
  iter m x = Ok x' /\
  length key' = length key /\
  (forall j, (j < m)%nat ->
     exists xj v, iter (S j) x = Ok xj /\ byte_value xj = Ok v /\
                  key' !! (s + j)%nat = Some v) /\
  (forall p, (p < s)%nat -> key' !! p = key !! p) /\
  (is_bytes key = true -> is_bytes key' = true).
Proof.
  induction m as [|m IH]; intros s x key x' key' H; cbn in H.
  - injection H as <- <-. repeat split; try reflexivity; try lia; auto.
  - inv_bind H. destruct a as [x1 key1]. cbn in H.
    apply body_Ok in Ha as (Hu & v & Hv & Hs & ->).
    apply IH in H as (Ho & Hlen & Hbytes & Hpre & Hwf).
    rewrite length_insert in Hlen.
    repeat split.
    + cbn. rewrite Hu. exact Ho.
    + exact Hlen.
    + intros [|j] Hj.
      * exists x1, v. cbn. rewrite Hu. cbn. repeat split; [exact Hv |].
        rewrite Nat.add_0_r, Hpre by lia.
        apply list_lookup_insert_eq. exact Hs.
      * destruct (Hbytes j ltac:(lia)) as (xj & w & Hxj & Hw & Hk).
        exists xj, w. repeat split; [| exact Hw |].
        -- change (iter (S (S j)) x)
             with (update x ≫= iter (S j)).
           rewrite Hu. exact Hxj.
        -- rewrite <- Hk. f_equal. lia.
    + intros p Hp. rewrite Hpre by lia.
      apply list_lookup_insert_ne. lia.
    + intros Hk. apply Hwf, is_bytes_insert; [exact Hk |].
      apply byte_value_Ok in Hv as [_ ->]. apply land_255_byte.
Qed.

(** The loop completes exactly when every iterate it meets has a finite
    scaled value, provided the indices are within the buffer. *)
Lemma loop_seq_is_ok (m : nat) : forall (s : nat) (x : pynum) (key : list Z),
  (s + m <= length key)%nat ->
  is_ok (run (seq s m) x key) =
  forallb (fun j => match iter (S j) x with
                    | Ok xj => F64.is_finite (value (scaled xj))
                    | Raise _ => false
                    end) (seq 0 m).
Proof.
  induction m as [|m IH]; intros s x key Hlen; [reflexivity |].
  cbn [seq forallb]. rewrite forallb_seq_S.
  cbn [loop orbit_from]. unfold body.
  destruct (update x) as [x1|e] eqn:Hu; cbn; [| reflexivity].
  rewrite <- byte_value_is_ok.
  destruct (byte_value x1) as [v|e] eqn:Hv; cbn; [| reflexivity].
  assert (Hs : setitem key s v = Ok (<[s := v]> key)).
  { apply setitem_Ok. repeat split; [lia |].
    apply byte_value_Ok in Hv as [_ ->]. apply land_255_byte. }
  rewrite Hs. cbn. rewrite IH by (rewrite length_insert; lia).
  reflexivity.
Qed.

(** A loop within the buffer raises nothing but what squaring and [int]
    raise. *)
Lemma loop_seq_Raise (m : nat) : forall (s : nat) (x : pynum) (key : list Z)
    (e : exn),
  (s + m <= length key)%nat ->
  run (seq s m) x key = Raise e ->
  e = OverflowError \/ e = ValueError.
Proof.
  induction m as [|m IH]; intros s x key e Hlen H; cbn in H;
    [discriminate |].
  apply bind_Raise in H as [H | ([x1 key1] & Hb & H)].
  - unfold body in H.
    apply bind_Raise in H as [H | (x1 & Hu & H)];
      [left; eapply gauss_update_Raise, H |].
    apply bind_Raise in H as [H | (v & Hv & H)];
      [eapply byte_value_Raise, H |].
    apply bind_Raise in H as [H | (k & _ & H)]; [| discriminate].
    assert (Hs : setitem key s v = Ok (<[s := v]> key)).
    { apply setitem_Ok. repeat split; [lia |].
      apply byte_value_Ok in Hv as [_ ->]. apply land_255_byte. }
    rewrite Hs in H. discriminate.
  - cbn in H. apply body_Ok in Hb as (_ & v & _ & _ & ->).
    eapply IH, H. rewrite length_insert. lia.
Qed.

End Loop.

(* ===================================================================== *)
(** ** The generator as a whole                                           *)
(* ===================================================================== *)

Lemma bytearray_Ok (length : Z) (key : list Z) :
  bytearray length = Ok key <->
  0 <= length /\ key = replicate (Z.to_nat length) 0.
Proof.
  unfold bytearray. destruct (Z.ltb_spec length 0); split;
    try discriminate.
  - intros [? _]. lia.
  - intros [= <-]. split; [lia | reflexivity].
  - intros [_ ->]. reflexivity.
Qed.

Lemma iterates_ok_false libm_exp libm_pow2 alpha beta x0 (n k : nat) :
  (k < n)%nat ->
  iterate_ok libm_exp libm_pow2 alpha beta x0 (S k) = false ->
  iterates_ok libm_exp libm_pow2 alpha beta x0 n = false.
Proof.
  intros Hk Hf. unfold iterates_ok.
  destruct (forallb _ _) eqn:E; [| reflexivity].
  rewrite forallb_forall in E. rewrite <- Hf. symmetry. apply E, in_seq. lia.
Qed.

Section Keygen.

Variable libm_exp : float -> float.
Variable libm_pow2 : float -> float.


(** What a returned keystream is: as long as asked, made of bytes, with the
    byte of the [(j+1)]-th iterate at position [j]. *)
Lemma keygen_Ok (n : Z) (x0 alpha beta : float) (key : list Z) :
  gauss_map_keygen libm_exp libm_pow2 n x0 alpha beta = Ok key ->
  0 <= n /\
  length key = Z.to_nat n /\
  is_bytes key = true /\
  forall j, (j < Z.to_nat n)%nat ->
    exists xj v, orbit libm_exp libm_pow2 alpha beta x0 (S j) = Ok xj /\
                 byte_value xj = Ok v /\ key !! j = Some v.
Proof.
  unfold gauss_map_keygen, range. intros H.
  inv_bind H. rename a into key0. inv_bind H.
  destruct a as [x' key']. injection H as <-.
  apply bytearray_Ok in Ha as [Hn ->].
  apply loop_seq_Ok in Ha0 as (_ & Hlen & Hb & _ & Hwf).
  rewrite length_replicate in Hlen.
  repeat split; auto using is_bytes_replicate_0.
Qed.

(** The generator returns exactly when every iterate is accepted. *)
Lemma keygen_is_ok (n : Z) (x0 alpha beta : float) :
  0 <= n ->
  is_ok (gauss_map_keygen libm_exp libm_pow2 n x0 alpha beta) =
  iterates_ok libm_exp libm_pow2 alpha beta x0 (Z.to_nat n).
Proof.
  intros Hn. unfold gauss_map_keygen, range, bytearray.
  destruct (Z.ltb_spec n 0); [lia |]. cbn.
  unfold iterates_ok, iterate_ok, orbit.
  rewrite <- (loop_seq_is_ok libm_exp libm_pow2 alpha beta (Z.to_nat n) 0
                (PyFloat x0) (replicate (Z.to_nat n) 0))
    by (rewrite length_replicate; lia).
  destruct (loop _ _ _ _ _ _ _) as [[x' key']|e]; reflexivity.
Qed.

Lemma keygen_Raise (n : Z) (x0 alpha beta : float) (e : exn) :
  gauss_map_keygen libm_exp libm_pow2 n x0 alpha beta = Raise e ->
  e = OverflowError \/ e = ValueError.
Proof.
  unfold gauss_map_keygen, range, bytearray.
  destruct (Z.ltb_spec n 0) as [Hn | Hn]; cbn; [intros [= <-]; auto |].
  intros H. apply bind_Raise in H as [H | ([x' key'] & _ & H)];
    [| discriminate].
  eapply loop_seq_Raise, H. rewrite length_replicate. lia.
Qed.

End Keygen.

(* ===================================================================== *)
(** ** Runs of the transition system                                      *)
(* ===================================================================== *)

Section Runs.

Variable libm_exp : float -> float.
Variable libm_pow2 : float -> float.
Variables alpha beta : float.
Variable n : nat.

Local Abbreviation next := (step libm_exp libm_pow2 alpha beta n).

Lemma step_deterministic (c c1 c2 : config) :
  next c c1 -> next c c2 -> c1 = c2.
Proof.
  intros H1 H2.
  destruct H1; inversion H2; subst; try congruence; try lia.
Qed.

Lemma final_no_step (c c' : config) : final c -> ~ next c c'.
Proof. intros Hf Hs. destruct Hs; exact Hf. Qed.

(** Two runs from the same configuration end in the same final
    configuration. *)
Lemma run_deterministic (c c1 c2 : config) :
  rtc next c c1 -> final c1 -> rtc next c c2 -> final c2 -> c1 = c2.
Proof.
  intros H1. revert c2.
  induction H1 as [c | c y c1 Hs Hr IH]; intros c2 Hf1 H2 Hf2.
  - inversion H2 as [| ? y ? Hs _]; subst; [reflexivity |].
    destruct (final_no_step _ _ Hf1 Hs).
  - inversion H2 as [| ? y' ? Hs' Hr']; subst.
    + destruct (final_no_step _ _ Hf2 Hs).
    + rewrite <- (step_deterministic _ _ _ Hs Hs') in Hr'. auto.
Qed.

Lemma loop_outcome_final (r : result (pynum * list Z)) :
  final (loop_outcome r).
Proof. destruct r as [[x key]|e]; exact I. Qed.

(** The function [loop] computes a run of the transition system. *)
Lemma loop_runs (m : nat) : forall (s : nat) (x : pynum) (key : list Z),
  (s + m)%nat = n ->
  rtc next (AtHead s x key)
    (loop_outcome (loop libm_exp libm_pow2 alpha beta (seq s m) x key)).
Proof.
  induction m as [|m IH]; intros s x key Hn.
  - cbn. apply rtc_once, step_return. lia.
  - cbn [seq loop]. unfold body.
    destruct (gauss_update libm_exp libm_pow2 alpha beta x) as [x1|e]
      eqn:Hu; cbn.
    2: { apply rtc_once, step_update_raise; [lia | exact Hu]. }
    eapply rtc_l; [apply step_update; [lia | exact Hu] |].
    destruct (byte_value x1) as [v|e] eqn:Hv; cbn.
    2: { apply rtc_once, step_int_raise. exact Hv. }
    destruct (setitem key s v) as [key1|e] eqn:Hs; cbn.
    2: { eapply rtc_once, step_store_raise; eassumption. }
    eapply rtc_l; [eapply step_store; eassumption |].
    apply IH. lia.
Qed.

End Runs.

Lemma outcome_final (r : result (list Z)) : final (outcome r).
Proof. destruct r; exact I. Qed.

(** The function [gauss_map_keygen] computes a complete run. *)
Lemma keygen_run_complete libm_exp libm_pow2 (length : Z)
    (x0 alpha beta : float) :
  keygen_run libm_exp libm_pow2 length x0 alpha beta
    (outcome (gauss_map_keygen libm_exp libm_pow2 length x0 alpha beta)).
Proof.
  unfold gauss_map_keygen.
  destruct (bytearray length) as [key|e] eqn:Hb; cbn.
  - eapply run_loop; [exact Hb | | ].
    + pose proof (loop_runs libm_exp libm_pow2 alpha beta (Z.to_nat length)
                    (Z.to_nat length) 0 (PyFloat x0) key eq_refl) as Hr.
      unfold range.
      destruct (loop _ _ _ _ _ _ _) as [[x' key']|e]; exact Hr.
    + destruct (loop _ _ _ _ _ _ _) as [[x' key']|e]; exact I.
  - apply run_alloc_raise. exact Hb.
Qed.

(* ===================================================================== *)
(** ** Properties of the keystream generator                              *)
(* ===================================================================== *)

Section GeneratorProperties.

Variable libm_exp : float -> float.
Variable libm_pow2 : float -> float.

(** C7 (length fidelity).  A returned keystream has exactly the requested
    length; the generator returns one whenever every iterate is accepted;
    for length 0 it returns the empty sequence whatever the parameters, and
    the only transition from the head of the loop is the return: no update
    and no store happens. *)
Theorem keygen_length (n : Z) (x0 alpha beta : float) :
  (forall key, gauss_map_keygen libm_exp libm_pow2 n x0 alpha beta = Ok key ->
               0 <= n /\ Z.of_nat (length key) = n) /\
  (0 <= n ->
   iterates_ok libm_exp libm_pow2 alpha beta x0 (Z.to_nat n) = true ->
   exists key, gauss_map_keygen libm_exp libm_pow2 n x0 alpha beta = Ok key /\
               Z.of_nat (length key) = n) /\
  gauss_map_keygen libm_exp libm_pow2 0 x0 alpha beta = Ok [] /\
  (forall c, step libm_exp libm_pow2 alpha beta 0
               (AtHead 0 (PyFloat x0) []) c -> c = Returned []).
Proof.
  repeat split.
  - apply keygen_Ok in H. tauto.
  - apply keygen_Ok in H as (Hn & Hlen & _). lia.
  - intros Hn Hok. rewrite <- keygen_is_ok in Hok by exact Hn.
    apply is_ok_true in Hok as [key Hk]. exists key. split; [exact Hk |].
    apply keygen_Ok in Hk as (_ & Hlen & _). lia.
  - intros c Hs. inversion Hs; subst; [lia | lia | reflexivity].
Qed.

(** C8 (byte range).  Every byte of a returned keystream lies in
    [0, 255]. *)
Theorem keygen_byte_range (n : Z) (x0 alpha beta : float) (key : list Z) :
  gauss_map_keygen libm_exp libm_pow2 n x0 alpha beta = Ok key ->
  Forall (fun b => 0 <= b <= 255) key.
Proof.
  intros H. apply keygen_Ok in H as (_ & _ & Hb & _).
  apply is_bytes_spec, Hb.
Qed.

(** The value line 20 stores is a byte, whatever the state. *)
Lemma byte_value_range (x : pynum) (v : Z) :
  byte_value x = Ok v -> 0 <= v <= 255.
Proof.
  intros H. apply byte_value_Ok in H as [_ ->].
  apply is_byte_spec, land_255_byte.
Qed.

(** C10 (negative length).  A negative length raises [ValueError]: the
    buffer cannot be allocated. *)
Theorem keygen_negative_length (n : Z) (x0 alpha beta : float) :
  n < 0 ->
  gauss_map_keygen libm_exp libm_pow2 n x0 alpha beta = Raise ValueError.
Proof.
  intros Hn. unfold gauss_map_keygen, bytearray.
  destruct (Z.ltb_spec n 0); [reflexivity | lia].
Qed.

Lemma float_pow2_opp (v : float) :
  float_pow2 libm_pow2 (F64.opp v) = float_pow2 libm_pow2 v.
Proof. destruct v; reflexivity. Qed.

Lemma gauss_update_opp (alpha beta x0 : float) :
  gauss_update libm_exp libm_pow2 alpha beta (PyFloat (F64.opp x0)) =
  gauss_update libm_exp libm_pow2 alpha beta (PyFloat x0).
Proof. unfold gauss_update, py_pow2. rewrite float_pow2_opp. reflexivity. Qed.

(** C9 (seed-sign symmetry).  The seed and its negation give the same
    outcome: the same keystream or the same exception. *)
Theorem keygen_seed_sign (n : Z) (x0 alpha beta : float) :
  gauss_map_keygen libm_exp libm_pow2 n (F64.opp x0) alpha beta =
  gauss_map_keygen libm_exp libm_pow2 n x0 alpha beta.
Proof.
  unfold gauss_map_keygen, range.
  destruct (bytearray n) as [key|e]; [| reflexivity].
  destruct (Z.to_nat n) as [|m]; [reflexivity |].
  cbn [seq loop mbind result_bind]. unfold body.
  rewrite gauss_update_opp. reflexivity.
Qed.

(** The transition relation is functional: two complete runs on the same
    arguments end in the same configuration.  The configurations hold all
    the state this model has; state of the Python runtime outside the
    arguments of the call (NumPy's floating-point error mode, the warnings
    filter) is not part of it. *)
Lemma keygen_run_functional (n : Z) (x0 alpha beta : float)
    (c1 c2 : config) :
  keygen_run libm_exp libm_pow2 n x0 alpha beta c1 ->
  keygen_run libm_exp libm_pow2 n x0 alpha beta c2 ->
  c1 = c2.
Proof.
  intros H1 H2.
  destruct H1 as [e1 Hb1 | key1 c1 Hb1 Hr1 Hf1];
    destruct H2 as [e2 Hb2 | key2 c2 Hb2 Hr2 Hf2]; try congruence.
  assert (key1 = key2) as -> by congruence.
  eapply run_deterministic; eassumption.
Qed.

(** C4, as the program has it (totality).  For a non-negative length the
    generator returns a keystream exactly when every iterate up to the
    length exists and has a finite scaled value; otherwise it raises
    [OverflowError] or [ValueError].  In particular an iterate that is
    infinite or NaN makes the call raise: no byte is made of it. *)
Theorem keygen_returns_iff (n : Z) (x0 alpha beta : float) :
  0 <= n ->
  is_ok (gauss_map_keygen libm_exp libm_pow2 n x0 alpha beta) =
    iterates_ok libm_exp libm_pow2 alpha beta x0 (Z.to_nat n) /\
  (forall e, gauss_map_keygen libm_exp libm_pow2 n x0 alpha beta = Raise e ->
             e = OverflowError \/ e = ValueError) /\
  (forall k x, (k < Z.to_nat n)%nat ->
     orbit libm_exp libm_pow2 alpha beta x0 (S k) = Ok x ->
     F64.is_finite (value x) = false ->
     exists e, gauss_map_keygen libm_exp libm_pow2 n x0 alpha beta = Raise e).
Proof.
  intros Hn. repeat split.
  - apply keygen_is_ok, Hn.
  - apply keygen_Raise.
  - intros k x Hk Hx Hinf.
    pose proof (keygen_is_ok libm_exp libm_pow2 n x0 alpha beta Hn) as Hf.
    rewrite (iterates_ok_false _ _ _ _ _ _ k Hk) in Hf.
    + destruct (gauss_map_keygen _ _ _ _ _ _) as [key|e];
        [discriminate | eauto].
    + unfold iterate_ok. rewrite Hx. apply scaled_not_finite, Hinf.
Qed.

(** C3, as the program has it (byte mapping).  The byte at position [i] of
    a returned keystream is the scaled value of the [(i+1)]-th iterate,
    rounded toward zero and reduced modulo 256.  It is the floor formula
    whenever the scaled value is non-negative or an integer, and one more
    than the floor, modulo 256, when it is negative with a fraction. *)
Theorem byte_formula_trunc (n : Z) (x0 alpha beta : float)
    (key : list Z) :
  gauss_map_keygen libm_exp libm_pow2 n x0 alpha beta = Ok key ->
  forall i, (i < Z.to_nat n)%nat ->
    exists x, orbit libm_exp libm_pow2 alpha beta x0 (S i) = Ok x /\
      key !! i = Some (F64.trunc (Spec.scaled (value x)) mod 256) /\
      (F64.signbit (Spec.scaled (value x)) = false \/
       F64.is_integer (Spec.scaled (value x)) = true ->
       key !! i = Some (Spec.byte_value (value x))) /\
      (F64.signbit (Spec.scaled (value x)) = true ->
       F64.is_integer (Spec.scaled (value x)) = false ->
       key !! i = Some ((F64.floor (Spec.scaled (value x)) + 1) mod 256)).
Proof.
  intros H i Hi.
  apply keygen_Ok in H as (_ & _ & _ & Hb).
  destruct (Hb i Hi) as (x & v & Hx & Hv & Hk).
  apply byte_value_Ok in Hv as [Hfin ->].
  rewrite land_255_mod, value_scaled in Hk. rewrite value_scaled in Hfin.
  exists x. repeat split; [exact Hx | exact Hk | |].
  - intros Hs. unfold Spec.byte_value.
    rewrite <- (trunc_floor _ Hs). exact Hk.
  - intros Hs Hint. rewrite <- (trunc_floor_neg _ Hfin Hs Hint). exact Hk.
Qed.

End GeneratorProperties.

(* ===================================================================== *)
(** ** The update against the specification's formula                     *)
(* ===================================================================== *)

Lemma SFeqb_one (m : positive) (e : Z) :
  SFeqb (S754_finite false m e) F64.one = true ->
  S754_finite false m e = F64.one.
Proof.
  unfold SFeqb, SFcompare, F64.one.
  destruct (Z.compare_spec e (-52)) as [-> | |]; try discriminate.
  destruct (Pos.compare_cont Eq m 4503599627370496) eqn:E;
    try discriminate.
  intros _. apply (Pos.compare_eq m) in E. rewrite E. reflexivity.
Qed.

Section UpdateFormula.

Variable libm_exp : float -> float.
Variable libm_pow2 : float -> float.
Variables alpha beta : float.

Hypothesis pow2_std : Spec.pow2_conforming libm_pow2.

Local Abbreviation update := (gauss_update libm_exp libm_pow2 alpha beta).
Local Abbreviation iter := (orbit_from libm_exp libm_pow2 alpha beta).
Local Abbreviation spec_update := (Spec.update libm_exp libm_pow2 alpha beta).
Local Abbreviation spec_iterate := (Spec.iterate libm_exp libm_pow2 alpha beta).

(** When the interpreter's [v ** 2] returns, it returns [pow(v, 2.0)]. *)
Lemma float_pow2_Ok (v r : float) :
  float_pow2 libm_pow2 v = Ok r -> r = libm_pow2 v.
Proof.
  destruct pow2_std as (Heven & Hnan & Hinf & Hzero & Hone).
  destruct v as [s|s| |s m e]; unfold float_pow2.
  - intros [= <-]. rewrite <- (Heven (S754_zero s)). symmetry. exact Hzero.
  - intros [= <-]. rewrite <- (Heven (S754_infinity s)). symmetry.
    exact Hinf.
  - intros [= <-]. symmetry. exact Hnan.
  - rewrite <- (Heven (S754_finite s m e)).
    change (F64.abs (S754_finite s m e)) with (S754_finite false m e).
    destruct (SFeqb _ _) eqn:E.
    + intros [= <-]. apply SFeqb_one in E. rewrite E. symmetry. exact Hone.
    + destruct (F64.is_inf _); [discriminate |]. intros [= <-]. reflexivity.
Qed.

Lemma py_pow2_Ok (x sq : pynum) :
  py_pow2 libm_pow2 x = Ok sq -> value sq = libm_pow2 (value x).
Proof.
  destruct x as [v|v]; unfold py_pow2.
  - intros H. inv_bind H. injection H as <-.
    apply float_pow2_Ok, Ha.
  - intros [= <-]. reflexivity.
Qed.

(** One pass through line 18 is one application of the formula. *)
Lemma gauss_update_spec (x x' : pynum) :
  update x = Ok x' -> x' = NpFloat64 (spec_update (value x)).
Proof.
  unfold gauss_update. intros H. inv_bind H. rename a into sq.
  injection H as <-. apply py_pow2_Ok in Ha.
  unfold Spec.update. rewrite <- Ha. destruct sq; reflexivity.
Qed.

Lemma spec_iterate_shift (k : nat) (v : float) :
  spec_iterate (spec_update v) k = spec_update (spec_iterate v k).
Proof.
  induction k as [|k IH]; cbn; [reflexivity | rewrite IH; reflexivity].
Qed.

Lemma orbit_from_value (k : nat) : forall x x',
  iter k x = Ok x' -> value x' = spec_iterate (value x) k.
Proof.
  induction k as [|k IH]; intros x x' H; cbn in H.
  - injection H as <-. reflexivity.
  - inv_bind H. apply IH in H. apply gauss_update_spec in Ha as ->.
    rewrite H. cbn [value]. rewrite spec_iterate_shift. reflexivity.
Qed.

Lemma orbit_from_np (k : nat) : forall x x',
  iter (S k) x = Ok x' -> exists v, x' = NpFloat64 v.
Proof.
  induction k as [|k IH]; intros x x' H.
  - cbn in H. inv_bind H. injection H as <-.
    eapply gauss_update_np, Ha.
  - change (iter (S (S k)) x) with (update x ≫= iter (S k)) in H.
    inv_bind H. eapply IH, H.
Qed.

(** The state after [k+1] passes is the [(k+1)]-th iterate of the formula
    from the seed, as a [numpy.float64]. *)
Lemma orbit_spec (x0 : float) (k : nat) (x : pynum) :
  orbit libm_exp libm_pow2 alpha beta x0 (S k) = Ok x ->
  x = NpFloat64 (spec_iterate x0 (S k)).
Proof.
  unfold orbit. intros H.
  destruct (orbit_from_np _ _ _ H) as [v ->].
  apply orbit_from_value in H. cbn [value] in H. rewrite H. reflexivity.
Qed.

(** C5 (map update).  With [x] initialised to [x0], the state after the
    [(i+1)]-th pass is the [(i+1)]-th iterate of
    [x -> exp(-alpha * x^2) + beta], and the byte at position [i] of a
    returned keystream is made from that updated state. *)
Theorem update_formula (n : Z) (x0 : float) (key : list Z) :
  gauss_map_keygen libm_exp libm_pow2 n x0 alpha beta = Ok key ->
  orbit libm_exp libm_pow2 alpha beta x0 0 = Ok (PyFloat x0) /\
  forall i, (i < Z.to_nat n)%nat ->
    orbit libm_exp libm_pow2 alpha beta x0 (S i) =
      Ok (NpFloat64 (spec_iterate x0 (S i))) /\
    exists v, byte_value (NpFloat64 (spec_iterate x0 (S i))) = Ok v /\
              key !! i = Some v.
Proof.
  intros H. split; [reflexivity |]. intros i Hi.
  apply keygen_Ok in H as (_ & _ & _ & Hb).
  destruct (Hb i Hi) as (x & v & Hx & Hv & Hk).
  pose proof (orbit_spec _ _ _ Hx) as ->. eauto.
Qed.

End UpdateFormula.

(* ===================================================================== *)
(** ** Properties of the XOR transform                                    *)
(* ===================================================================== *)

Section TransformProperties.

Variable libm_exp : float -> float.
Variable libm_pow2 : float -> float.
Variable sys : os.

(** With a keystream in hand, the transform returns the pairwise XOR. *)
Lemma xor_transform_Ok (data : list Z) (x0 alpha beta : float)
    (ks : list Z) :
  is_bytes data = true ->
  gauss_map_keygen libm_exp libm_pow2 (Z.of_nat (length data))
    x0 alpha beta = Ok ks ->
  xor_transform libm_exp libm_pow2 data x0 alpha beta
    = Ok (zip_with Z.lxor data ks) /\
  length ks = length data /\ is_bytes ks = true.
Proof.
  intros Hd Hk. unfold xor_transform. rewrite Hk. cbn.
  apply keygen_Ok in Hk as (_ & Hlen & Hb & _).
  rewrite Nat2Z.id in Hlen.
  unfold bytes_of. rewrite is_bytes_zip_lxor by assumption. auto.
Qed.

(** C2 (XOR transform).  For a byte sequence [data] and the keystream [ks]
    the generator returns for its length, the transform returns a sequence
    of the same length whose [i]-th byte is [data[i] XOR ks[i]]; when the
    generator raises, so does the transform; the empty input gives the
    empty output. *)
Theorem xor_transform_correct (data : list Z) (x0 alpha beta : float) :
  is_bytes data = true ->
  (forall ks,
     gauss_map_keygen libm_exp libm_pow2 (Z.of_nat (length data))
       x0 alpha beta = Ok ks ->
     exists res,
       xor_transform libm_exp libm_pow2 data x0 alpha beta = Ok res /\
       length res = length data /\
       forall i, (i < length data)%nat ->
         exists d k, data !! i = Some d /\ ks !! i = Some k /\
                     res !! i = Some (Z.lxor d k)) /\
  (forall e,
     gauss_map_keygen libm_exp libm_pow2 (Z.of_nat (length data))
       x0 alpha beta = Raise e ->
     xor_transform libm_exp libm_pow2 data x0 alpha beta = Raise e) /\
  xor_transform libm_exp libm_pow2 [] x0 alpha beta = Ok [].
Proof.
  intros Hd. repeat split.
  - intros ks Hk.
    destruct (xor_transform_Ok _ _ _ _ _ Hd Hk) as (Ht & Hlen & _).
    exists (zip_with Z.lxor data ks). repeat split; [exact Ht | |].
    + rewrite length_zip_with. lia.
    + intros i Hi.
      destruct (lookup_lt_is_Some_2 data i Hi) as [d Hdi].
      destruct (lookup_lt_is_Some_2 ks i ltac:(lia)) as [k Hki].
      exists d, k. repeat split; [exact Hdi | exact Hki |].
      rewrite lookup_zip_with, Hdi, Hki. reflexivity.
  - intros e Hk. unfold xor_transform. rewrite Hk. reflexivity.
Qed.

(** Transforming twice, as one computation. *)
Lemma xor_transform_twice (d : list Z) (x0 alpha beta : float) :
  is_bytes d = true ->
  is_ok (gauss_map_keygen libm_exp libm_pow2 (Z.of_nat (length d))
           x0 alpha beta) = true ->
  xor_transform libm_exp libm_pow2 d x0 alpha beta
  ≫= (fun c => xor_transform libm_exp libm_pow2 c x0 alpha beta) = Ok d.
Proof.
  intros Hd Hok. apply is_ok_true in Hok as [ks Hk].
  destruct (xor_transform_Ok _ _ _ _ _ Hd Hk) as (Ht & Hlen & Hb).
  rewrite Ht. cbn.
  assert (Hlc : length (zip_with Z.lxor d ks) = length d)
    by (rewrite length_zip_with; lia).
  assert (Hc : is_bytes (zip_with Z.lxor d ks) = true)
    by (apply is_bytes_zip_lxor; assumption).
  rewrite <- Hlc in Hk.
  destruct (xor_transform_Ok _ _ _ _ _ Hc Hk) as (Ht' & _ & _).
  rewrite Ht', zip_lxor_cancel by lia. reflexivity.
Qed.

(** C1 (involution).  When the transform of a byte sequence [d] returns
    [c], the transform of [c] with the same parameters returns [d]. *)
Theorem xor_transform_involution (d c : list Z) (x0 alpha beta : float) :
  is_bytes d = true ->
  xor_transform libm_exp libm_pow2 d x0 alpha beta = Ok c ->
  xor_transform libm_exp libm_pow2 c x0 alpha beta = Ok d.
Proof.
  intros Hd Hc.
  pose proof (xor_transform_twice d x0 alpha beta Hd) as H.
  rewrite Hc in H. apply H.
  unfold xor_transform in Hc. inv_bind Hc. rewrite Ha. reflexivity.
Qed.

(** What a returned call on files did: both files could be opened, the
    input file was there, its contents were transformed and the result was
    written to the output file. *)
Lemma cipher_file_inv (fs fs' : files) (inp out : string)
    (x0 alpha beta : float) :
  chaotic_encrypt_decrypt libm_exp libm_pow2 sys fs inp out x0 alpha beta
    = Ok fs' ->
  exists d c,
    open_rb_error sys inp = None /\ fs !! inp = Some d /\
    xor_transform libm_exp libm_pow2 d x0 alpha beta = Ok c /\
    open_wb_error sys out = None /\ fs' = <[out := c]> fs.
Proof.
  unfold chaotic_encrypt_decrypt, read_file, write_file. intros H.
  destruct (open_rb_error sys inp); [discriminate |].
  destruct (fs !! inp) as [d|]; [| discriminate]. cbn in H.
  inv_bind H. rename a into c.
  destruct (open_wb_error sys out); [discriminate |].
  injection H as <-. eauto 10.
Qed.

(** The same on files: encrypting [inp] into [mid] and decrypting [mid]
    into [out] with the same parameters leaves in [out] the contents of
    [inp]. *)
Lemma file_round_trip (fs fs1 fs2 : files) (inp mid out : string)
    (x0 alpha beta : float) (d : list Z) :
  fs !! inp = Some d -> is_bytes d = true ->
  chaotic_encrypt_decrypt libm_exp libm_pow2 sys fs inp mid x0 alpha beta
    = Ok fs1 ->
  chaotic_encrypt_decrypt libm_exp libm_pow2 sys fs1 mid out x0 alpha beta
    = Ok fs2 ->
  fs2 !! out = Some d.
Proof.
  intros Hin Hd H1 H2.
  apply cipher_file_inv in H1 as (d1 & c & _ & Hd1 & Hc & _ & ->).
  apply cipher_file_inv in H2 as (c' & d' & _ & Hc' & Hd' & _ & ->).
  rewrite lookup_insert_eq in Hc'. injection Hc' as <-.
  assert (d1 = d) as -> by congruence.
  pose proof (xor_transform_twice d x0 alpha beta Hd) as Hinv.
  rewrite Hc in Hinv. cbn in Hinv. rewrite Hd' in Hinv.
  rewrite lookup_insert_eq. f_equal.
  assert (Ok d' = Ok d) as [= ->]; [| reflexivity].
  apply Hinv. unfold xor_transform in Hc. inv_bind Hc. rewrite Ha.
  reflexivity.
Qed.

End TransformProperties.

(* ===================================================================== *)
(** ** The reference instance and concrete runs                           *)
(* ===================================================================== *)

Lemma ref_pow2_conforming : Spec.pow2_conforming RefLibm.pow2.
Proof.
  unfold Spec.pow2_conforming, RefLibm.pow2. repeat split.
  intros [s|s| |s m e]; try reflexivity; destruct s; reflexivity.
Qed.

(** The literals are numbers of the binary64 format, and finite. *)
Lemma literals_valid :
  forallb (fun v => F64.valid v && F64.is_finite v)
    [Lit.f0_1; Lit.f4_9; Lit.f0_2; Lit.f1e200; Lit.fm2_01; Lit.f1e308;
     Lit.fm1e5; Lit.f0; F64.one] = true.
Proof. vm_compute. reflexivity. Qed.

(** The specification's scenario: five bytes from [x0 = 0.1], [alpha = 4.9],
    [beta = 0.2]. *)
Example keygen_scenario :
  gauss_map_keygen RefLibm.exp RefLibm.pow2 5 Lit.f0_1 Lit.f4_9 Lit.f0_2
  = Ok [19; 153; 2; 154; 1].
Proof. vm_compute. reflexivity. Qed.

Example transform_scenario :
  xor_transform RefLibm.exp RefLibm.pow2 [0; 255; 66] Lit.f0_1 Lit.f4_9 Lit.f0_2
  = Ok [19; 102; 64].
Proof. vm_compute. reflexivity. Qed.

(** With a seed whose square overflows, the first [x0 ** 2] raises, whatever
    the exponential and for every [pow] that overflows there. *)
Lemma keygen_square_overflow (libm_exp libm_pow2 : float -> float)
    (alpha beta : float) :
  F64.is_inf (libm_pow2 Lit.f1e200) = true ->
  gauss_map_keygen libm_exp libm_pow2 1 Lit.f1e200 alpha beta
  = Raise OverflowError.
Proof.
  intros H. unfold gauss_map_keygen, bytearray, range.
  change (1 <? 0) with false. change (Z.to_nat 1) with 1%nat.
  cbn [replicate seq loop mbind result_bind].
  unfold body, gauss_update, py_pow2, float_pow2, Lit.f1e200.
  change (F64.abs (S754_finite false 5883593420661338 612))
    with Lit.f1e200.
  replace (SFeqb Lit.f1e200 F64.one) with false by (vm_compute; reflexivity).
  rewrite H. reflexivity.
Qed.

(** With the seed 0 the first state is [exp(-0.0) + beta]: for every
    exponential that is 1 at zero and [beta = -2.01], the scaled value is
    about -1.28 and the byte stored is 255. *)
Lemma keygen_negative_scaled (libm_exp libm_pow2 : float -> float) :
  libm_exp (S754_zero true) = F64.one ->
  gauss_map_keygen libm_exp libm_pow2 1 Lit.f0 Lit.f4_9 Lit.fm2_01 = Ok [255]
  /\ orbit libm_exp libm_pow2 Lit.f4_9 Lit.fm2_01 Lit.f0 1
     = Ok (NpFloat64 (S754_finite true 4548635623644200 (-52))).
Proof.
  intros H. unfold gauss_map_keygen, orbit, bytearray, range.
  change (1 <? 0) with false. change (Z.to_nat 1) with 1%nat.
  cbn [replicate seq loop orbit_from mbind result_bind].
  unfold body, gauss_update, py_pow2, float_pow2, Lit.f0, np_exp.
  cbn [mbind result_bind py_neg arith value].
  replace (F64.mul (F64.opp Lit.f4_9) (S754_zero false))
    with (S754_zero true) by (vm_compute; reflexivity).
  rewrite H. split; vm_compute; reflexivity.
Qed.

(** The update is not the logistic map: at [x = 1] the logistic map gives a
    zero (or NaN) for every [r], the program's update gives
    [exp(-4.9) + 0.2]. *)
Lemma update_not_logistic (r : float) :
  Spec.logistic r F64.one
  <> Spec.update RefLibm.exp RefLibm.pow2 Lit.f4_9 Lit.f0_2 F64.one.
Proof.
  unfold Spec.logistic.
  replace (F64.sub F64.one F64.one) with (S754_zero false)
    by (vm_compute; reflexivity).
  replace (Spec.update RefLibm.exp RefLibm.pow2 Lit.f4_9 Lit.f0_2 F64.one)
    with (S754_finite false 7474050833739980 (-55))
    by (vm_compute; reflexivity).
  destruct (F64.mul r F64.one); discriminate.
Qed.

(** C3, counterexample.  With [x0 = 0.0], [alpha = 4.9], [beta = -2.01] the
    first state is about -1.01 and its scaled value about -1.28: the program
    stores [int(-1.28) & 0xFF = 255], the floor formula gives
    [floor(-1.28) mod 256 = 254]. *)
Lemma byte_formula_floor_counterexample :
  gauss_map_keygen RefLibm.exp RefLibm.pow2 1 Lit.f0 Lit.f4_9 Lit.fm2_01
    = Ok [255] /\
  orbit RefLibm.exp RefLibm.pow2 Lit.f4_9 Lit.fm2_01 Lit.f0 1
    = Ok (NpFloat64 (S754_finite true 4548635623644200 (-52))) /\
  Spec.scaled (S754_finite true 4548635623644200 (-52))
    = S754_finite true 5764607523034112 (-52) /\
  Spec.byte_value (S754_finite true 4548635623644200 (-52)) = 254 /\
  [255] !! 0%nat
    <> Some (Spec.byte_value (S754_finite true 4548635623644200 (-52))).
Proof.
  repeat split; try (vm_compute; reflexivity). vm_compute. discriminate.
Qed.

(** C4, counterexample.  Finite arguments on which the generator raises.
    With [x0 = 0.1] and [alpha = -100000] the exponent is about 1000, the
    exponential overflows, the state is infinite and [int] raises.  With
    [beta = 1e308] the state is finite but its scaled value overflows and
    [int] raises.  With [x0 = 1e200] the first [x0 ** 2] raises. *)
Lemma keygen_totality_counterexample :
  orbit RefLibm.exp RefLibm.pow2 Lit.fm1e5 Lit.f0_2 Lit.f0_1 1
    = Ok (NpFloat64 (S754_infinity false)) /\
  gauss_map_keygen RefLibm.exp RefLibm.pow2 1 Lit.f0_1 Lit.fm1e5 Lit.f0_2
    = Raise OverflowError /\
  gauss_map_keygen RefLibm.exp RefLibm.pow2 1 Lit.f0_1 Lit.f4_9 Lit.f1e308
    = Raise OverflowError /\
  gauss_map_keygen RefLibm.exp RefLibm.pow2 1 Lit.f1e200 Lit.f4_9 Lit.f0_2
    = Raise OverflowError.
Proof. repeat split; vm_compute; reflexivity. Qed.

(* ===================================================================== *)
(** ** The theorems at concrete inputs                                    *)
(* ===================================================================== *)

Lemma xor_transform_involution_witness :
  is_bytes [0; 255; 66] = true /\
  xor_transform RefLibm.exp RefLibm.pow2 [0; 255; 66]
    Lit.f0_1 Lit.f4_9 Lit.f0_2 = Ok [19; 102; 64] /\
  xor_transform RefLibm.exp RefLibm.pow2 [19; 102; 64]
    Lit.f0_1 Lit.f4_9 Lit.f0_2 = Ok [0; 255; 66].
Proof.
  split; [reflexivity |]. split; [vm_compute; reflexivity |].
  apply (xor_transform_involution RefLibm.exp RefLibm.pow2 [0; 255; 66]);
    vm_compute; reflexivity.
Defined.

Lemma xor_transform_correct_witness :
  is_bytes [0; 255; 66] = true /\
  exists res,
    xor_transform RefLibm.exp RefLibm.pow2 [0; 255; 66]
      Lit.f0_1 Lit.f4_9 Lit.f0_2 = Ok res /\
    length res = length [0; 255; 66] /\
    forall i, (i < length [0; 255; 66])%nat ->
      exists d k, [0; 255; 66] !! i = Some d /\ [19; 153; 2] !! i = Some k /\
                  res !! i = Some (Z.lxor d k).
Proof.
  split; [reflexivity |].
  destruct (xor_transform_correct RefLibm.exp RefLibm.pow2 [0; 255; 66]
              Lit.f0_1 Lit.f4_9 Lit.f0_2 eq_refl) as (H & _ & _).
  apply H. vm_compute. reflexivity.
Defined.

Lemma byte_formula_trunc_witness :
  gauss_map_keygen RefLibm.exp RefLibm.pow2 5 Lit.f0_1 Lit.f4_9 Lit.f0_2
    = Ok [19; 153; 2; 154; 1] /\
  exists x,
    orbit RefLibm.exp RefLibm.pow2 Lit.f4_9 Lit.f0_2 Lit.f0_1 2 = Ok x /\
    [19; 153; 2; 154; 1] !! 1%nat
      = Some (F64.trunc (Spec.scaled (value x)) mod 256) /\
    (F64.signbit (Spec.scaled (value x)) = false \/
     F64.is_integer (Spec.scaled (value x)) = true ->
     [19; 153; 2; 154; 1] !! 1%nat = Some (Spec.byte_value (value x))) /\
    (F64.signbit (Spec.scaled (value x)) = true ->
     F64.is_integer (Spec.scaled (value x)) = false ->
     [19; 153; 2; 154; 1] !! 1%nat
       = Some ((F64.floor (Spec.scaled (value x)) + 1) mod 256)).
Proof.
  split; [vm_compute; reflexivity |].
  apply (byte_formula_trunc RefLibm.exp RefLibm.pow2 5 Lit.f0_1 Lit.f4_9
           Lit.f0_2 [19; 153; 2; 154; 1]).
  - vm_compute. reflexivity.
  - vm_compute. lia.
Defined.

Lemma keygen_returns_iff_witness :
  0 <= 5 /\
  is_ok (gauss_map_keygen RefLibm.exp RefLibm.pow2 5
           Lit.f0_1 Lit.f4_9 Lit.f0_2)
  = iterates_ok RefLibm.exp RefLibm.pow2 Lit.f4_9 Lit.f0_2 Lit.f0_1
      (Z.to_nat 5).
Proof.
  split; [lia |].
  destruct (keygen_returns_iff RefLibm.exp RefLibm.pow2 5
              Lit.f0_1 Lit.f4_9 Lit.f0_2) as (H & _ & _); [lia | exact H].
Defined.

Lemma update_formula_witness :
  Spec.pow2_conforming RefLibm.pow2 /\
  gauss_map_keygen RefLibm.exp RefLibm.pow2 2 Lit.f0_1 Lit.f4_9 Lit.f0_2
    = Ok [19; 153] /\
  orbit RefLibm.exp RefLibm.pow2 Lit.f4_9 Lit.f0_2 Lit.f0_1 2
    = Ok (NpFloat64
            (Spec.iterate RefLibm.exp RefLibm.pow2 Lit.f4_9 Lit.f0_2
               Lit.f0_1 2)) /\
  exists v,
    byte_value (NpFloat64
                  (Spec.iterate RefLibm.exp RefLibm.pow2 Lit.f4_9 Lit.f0_2
                     Lit.f0_1 2)) = Ok v /\
    [19; 153] !! 1%nat = Some v.
Proof.
  split; [exact ref_pow2_conforming |].
  split; [vm_compute; reflexivity |].
  destruct (update_formula RefLibm.exp RefLibm.pow2 Lit.f4_9 Lit.f0_2
              ref_pow2_conforming 2 Lit.f0_1 [19; 153]) as [_ H].
  - vm_compute. reflexivity.
  - apply (H 1%nat). vm_compute. lia.
Defined.

Lemma keygen_length_witness :
  gauss_map_keygen RefLibm.exp RefLibm.pow2 5 Lit.f0_1 Lit.f4_9 Lit.f0_2
    = Ok [19; 153; 2; 154; 1] /\
  0 <= 5 /\ Z.of_nat (length [19; 153; 2; 154; 1]) = 5.
Proof.
  split; [vm_compute; reflexivity |].
  destruct (keygen_length RefLibm.exp RefLibm.pow2 5
              Lit.f0_1 Lit.f4_9 Lit.f0_2) as (H & _).
  apply H. vm_compute. reflexivity.
Defined.

Lemma keygen_byte_range_witness :
  gauss_map_keygen RefLibm.exp RefLibm.pow2 5 Lit.f0_1 Lit.f4_9 Lit.f0_2
    = Ok [19; 153; 2; 154; 1] /\
  Forall (fun b => 0 <= b <= 255) [19; 153; 2; 154; 1].
Proof.
  split; [vm_compute; reflexivity |].
  apply (keygen_byte_range RefLibm.exp RefLibm.pow2 5
           Lit.f0_1 Lit.f4_9 Lit.f0_2).
  vm_compute. reflexivity.
Defined.

Lemma keygen_negative_length_witness :
  -1 < 0 /\
  gauss_map_keygen RefLibm.exp RefLibm.pow2 (-1) Lit.f0_1 Lit.f4_9 Lit.f0_2
    = Raise ValueError.
Proof.
  split; [lia |].
  apply (keygen_negative_length RefLibm.exp RefLibm.pow2). lia.
Defined.

(* ===================================================================== *)
(** ** Further properties of the generator                                *)
(* ===================================================================== *)

Lemma iterates_ok_le libm_exp libm_pow2 alpha beta x0 (n m : nat) :
  (n <= m)%nat ->
  iterates_ok libm_exp libm_pow2 alpha beta x0 m = true ->
  iterates_ok libm_exp libm_pow2 alpha beta x0 n = true.
Proof.
  unfold iterates_ok. rewrite !forallb_forall. intros Hle H i Hi.
  apply H. apply in_seq. apply in_seq in Hi. lia.
Qed.

Section GeneratorPrefix.

Variable libm_exp : float -> float.
Variable libm_pow2 : float -> float.
Variables x0 alpha beta : float.

(** Two returned keystreams agree wherever both are defined. *)
Lemma keygen_lookup_agree (n m : Z) (kn km : list Z) (j : nat) :
  gauss_map_keygen libm_exp libm_pow2 n x0 alpha beta = Ok kn ->
  gauss_map_keygen libm_exp libm_pow2 m x0 alpha beta = Ok km ->
  (j < Z.to_nat n)%nat -> (j < Z.to_nat m)%nat ->
  kn !! j = km !! j.
Proof.
  intros Hn Hm Hjn Hjm.
  apply keygen_Ok in Hn as (_ & _ & _ & Hbn).
  apply keygen_Ok in Hm as (_ & _ & _ & Hbm).
  destruct (Hbn j Hjn) as (x & v & Hx & Hv & ->).
  destruct (Hbm j Hjm) as (x' & v' & Hx' & Hv' & ->).
  congruence.
Qed.

(** A shorter request succeeds when a longer one does. *)
Lemma keygen_shorter_ok (n m : Z) :
  0 <= n <= m ->
  is_ok (gauss_map_keygen libm_exp libm_pow2 m x0 alpha beta) = true ->
  is_ok (gauss_map_keygen libm_exp libm_pow2 n x0 alpha beta) = true.
Proof.
  intros Hnm. rewrite !keygen_is_ok by lia.
  apply iterates_ok_le. lia.
Qed.

(** The keystream of a shorter request is the beginning of the keystream of
    a longer one: the bytes do not depend on how many are asked for. *)
Theorem keygen_prefix (n m : Z) (km : list Z) :
  0 <= n <= m ->
  gauss_map_keygen libm_exp libm_pow2 m x0 alpha beta = Ok km ->
  gauss_map_keygen libm_exp libm_pow2 n x0 alpha beta
  = Ok (take (Z.to_nat n) km).
Proof.
  intros Hnm Hm.
  assert (Hok : is_ok (gauss_map_keygen libm_exp libm_pow2 n x0 alpha beta)
                = true).
  { apply (keygen_shorter_ok n m Hnm). rewrite Hm. reflexivity. }
  apply is_ok_true in Hok as [kn Hn]. rewrite Hn. f_equal.
  pose proof (keygen_Ok _ _ _ _ _ _ _ Hn) as (_ & Hln & _).
  pose proof (keygen_Ok _ _ _ _ _ _ _ Hm) as (_ & Hlm & _).
  apply list_eq. intros j.
  destruct (Nat.lt_ge_cases j (Z.to_nat n)) as [Hj | Hj].
  - rewrite lookup_take_lt by exact Hj.
    apply (keygen_lookup_agree n m); auto. lia.
  - rewrite lookup_take_ge by exact Hj.
    apply lookup_ge_None. lia.
Qed.

Lemma loop_app (idx1 idx2 : list nat) : forall (x : pynum) (key : list Z),
  loop libm_exp libm_pow2 alpha beta (idx1 ++ idx2) x key =
  loop libm_exp libm_pow2 alpha beta idx1 x key
  ≫= (fun '(x', key') => loop libm_exp libm_pow2 alpha beta idx2 x' key').
Proof.
  induction idx1 as [|i idx1 IH]; intros x key; [reflexivity |].
  cbn [app loop].
  destruct (body libm_exp libm_pow2 alpha beta i x key) as [[x1 key1]|e];
    cbn; [apply IH | reflexivity].
Qed.

(** Whether and how the loop raises does not depend on the buffer, as long
    as the indices fit. *)
Lemma loop_seq_Raise_buffer (m : nat) :
  forall (s : nat) (x : pynum) (key1 key2 : list Z) (e : exn),
  (s + m <= length key1)%nat -> (s + m <= length key2)%nat ->
  loop libm_exp libm_pow2 alpha beta (seq s m) x key1 = Raise e ->
  loop libm_exp libm_pow2 alpha beta (seq s m) x key2 = Raise e.
Proof.
  induction m as [|m IH]; intros s x key1 key2 e H1 H2 H; cbn in H;
    [discriminate |].
  cbn [seq loop]. unfold body in *.
  destruct (gauss_update libm_exp libm_pow2 alpha beta x) as [x1|e1];
    cbn in *; [| exact H].
  destruct (byte_value x1) as [v|e1] eqn:Hv; cbn in *; [| exact H].
  assert (Hb : is_byte v = true).
  { apply byte_value_Ok in Hv as [_ ->]. apply land_255_byte. }
  assert (Hs1 : setitem key1 s v = Ok (<[s := v]> key1))
    by (apply setitem_Ok; repeat split; [lia | exact Hb]).
  assert (Hs2 : setitem key2 s v = Ok (<[s := v]> key2))
    by (apply setitem_Ok; repeat split; [lia | exact Hb]).
  rewrite Hs1 in H. rewrite Hs2. cbn in *.
  apply (IH _ _ (<[s := v]> key1)); [| | exact H];
    rewrite length_insert; lia.
Qed.

(** A request that raises keeps raising the same exception when more bytes
    are asked for: the first iterate that is refused decides. *)
Theorem keygen_raise_persists (n m : Z) (e : exn) :
  0 <= n <= m ->
  gauss_map_keygen libm_exp libm_pow2 n x0 alpha beta = Raise e ->
  gauss_map_keygen libm_exp libm_pow2 m x0 alpha beta = Raise e.
Proof.
  intros Hnm. unfold gauss_map_keygen, bytearray, range.
  destruct (Z.ltb_spec n 0) as [? | _]; [lia |].
  destruct (Z.ltb_spec m 0) as [? | _]; [lia |].
  cbn. intros H.
  apply bind_Raise in H as [H | ([x' key'] & _ & H)]; [| discriminate].
  replace (Z.to_nat m) with (Z.to_nat n + (Z.to_nat m - Z.to_nat n))%nat
    at 1 by lia.
  rewrite seq_app, loop_app.
  assert (H' : loop libm_exp libm_pow2 alpha beta (seq 0 (Z.to_nat n))
                 (PyFloat x0) (replicate (Z.to_nat m) 0) = Raise e).
  { eapply loop_seq_Raise_buffer; [| | exact H];
      rewrite length_replicate; lia. }
  rewrite H'. reflexivity.
Qed.

End GeneratorPrefix.

(* ===================================================================== *)
(** ** What an exception of the generator means                           *)
(* ===================================================================== *)

Lemma py_int_Raise_cause (x : pynum) (e : exn) :
  py_int x = Raise e ->
  (e = OverflowError /\ F64.is_inf (value x) = true) \/
  (e = ValueError /\ value x = S754_nan).
Proof.
  unfold py_int. destruct (value x); try discriminate; intros [= <-]; auto.
Qed.

Section RaiseCause.

Variable libm_exp : float -> float.
Variable libm_pow2 : float -> float.
Variables alpha beta : float.

(** On a [numpy.float64] the update cannot raise. *)
Lemma gauss_update_np_Ok (v : float) :
  exists x', gauss_update libm_exp libm_pow2 alpha beta (NpFloat64 v)
             = Ok x'.
Proof. unfold gauss_update. cbn. eauto. Qed.

(** A loop that raises does so in some pass [k]: at the update of the state
    reached, or at the conversion of the updated state. *)
Lemma loop_seq_Raise_cause (m : nat) :
  forall (s : nat) (x : pynum) (key : list Z) (e : exn),
  (s + m <= length key)%nat ->
  loop libm_exp libm_pow2 alpha beta (seq s m) x key = Raise e ->
  exists k, (k < m)%nat /\
    ((exists xk, orbit_from libm_exp libm_pow2 alpha beta k x = Ok xk /\
                 gauss_update libm_exp libm_pow2 alpha beta xk = Raise e) \/
     (exists x', orbit_from libm_exp libm_pow2 alpha beta (S k) x = Ok x' /\
                 py_int (scaled x') = Raise e)).
Proof.
  induction m as [|m IH]; intros s x key e Hlen H; cbn in H;
    [discriminate |].
  unfold body in H.
  destruct (gauss_update libm_exp libm_pow2 alpha beta x) as [x1|e1]
    eqn:Hu; cbn in H.
  2: { exists 0%nat. split; [lia |]. left. exists x. split; [reflexivity |].
       congruence. }
  destruct (byte_value x1) as [v|e1] eqn:Hv; cbn in H.
  2: { exists 0%nat. split; [lia |]. right. exists x1. split.
       - cbn. rewrite Hu. reflexivity.
       - unfold byte_value in Hv.
         apply bind_Raise in Hv as [Hv | (? & _ & Hv)]; [| discriminate].
         congruence. }
  assert (Hs : setitem key s v = Ok (<[s := v]> key)).
  { apply setitem_Ok. repeat split; [lia |].
    apply byte_value_Ok in Hv as [_ ->]. apply land_255_byte. }
  rewrite Hs in H. cbn in H.
  apply IH in H as (k & Hk & Hcause); [| rewrite length_insert; lia].
  exists (S k). split; [lia |].
  destruct Hcause as [(xk & Hxk & He) | (x' & Hx' & He)]; [left | right].
  - exists xk. split; [| exact He]. cbn. rewrite Hu. exact Hxk.
  - exists x'. split; [| exact He].
    change (orbit_from libm_exp libm_pow2 alpha beta (S (S k)) x)
      with (gauss_update libm_exp libm_pow2 alpha beta x
            ≫= orbit_from libm_exp libm_pow2 alpha beta (S k)).
    rewrite Hu. exact Hx'.
Qed.

(** The cause of a failure, for a non-negative length.  Either the square of
    the seed overflowed, or some iterate was reached whose scaled value is
    infinite ([OverflowError]) or NaN ([ValueError]). *)
Theorem keygen_raise_cause (n : Z) (x0 : float) (e : exn) :
  0 <= n ->
  gauss_map_keygen libm_exp libm_pow2 n x0 alpha beta = Raise e ->
  (e = OverflowError /\ float_pow2 libm_pow2 x0 = Raise OverflowError) \/
  (exists k x, (k < Z.to_nat n)%nat /\
     orbit libm_exp libm_pow2 alpha beta x0 (S k) = Ok x /\
     ((e = OverflowError /\ F64.is_inf (value (scaled x)) = true) \/
      (e = ValueError /\ value (scaled x) = S754_nan))).
Proof.
  intros Hn. unfold gauss_map_keygen, bytearray, range.
  destruct (Z.ltb_spec n 0) as [? | _]; [lia |]. cbn. intros H.
  apply bind_Raise in H as [H | ([x' key'] & _ & H)]; [| discriminate].
  apply loop_seq_Raise_cause in H as (k & Hk & Hcause);
    [| rewrite length_replicate; lia].
  destruct Hcause as [(xk & Hxk & He) | (x' & Hx' & He)].
  - left. destruct k as [|k].
    + cbn in Hxk. injection Hxk as <-.
      pose proof (gauss_update_Raise _ _ _ _ _ _ He) as ->.
      split; [reflexivity |].
      unfold gauss_update, py_pow2 in He.
      destruct (float_pow2 libm_pow2 x0) as [r|e'] eqn:Hp;
        [discriminate |].
      f_equal. eapply float_pow2_Raise, Hp.
    + destruct (orbit_from_np _ _ _ _ _ _ _ Hxk) as [v ->].
      destruct (gauss_update_np_Ok v) as [y Hy]. congruence.
  - right. exists k, x'. split; [exact Hk |]. split; [exact Hx' |].
    apply py_int_Raise_cause, He.
Qed.

End RaiseCause.

(* ===================================================================== *)
(** ** Further properties of the XOR transform                            *)
(* ===================================================================== *)

Lemma zip_lxor_cancel_l (d k : list Z) :
  length d = length k ->
  zip_with Z.lxor d (zip_with Z.lxor d k) = k.
Proof.
  revert k. induction d as [|a d IH]; intros [|b k]; cbn; try discriminate.
  - reflexivity.
  - intros [= Hlen]. rewrite IH by exact Hlen.
    rewrite <- Z.lxor_assoc, Z.lxor_nilpotent, Z.lxor_0_l. reflexivity.
Qed.

Lemma zip_lxor_same_key (d1 d2 k : list Z) :
  length d1 = length k -> length d2 = length k ->
  zip_with Z.lxor (zip_with Z.lxor d1 k) (zip_with Z.lxor d2 k)
  = zip_with Z.lxor d1 d2.
Proof.
  revert d2 k. induction d1 as [|a d1 IH]; intros [|b d2] [|c k]; cbn;
    try discriminate; try reflexivity.
  intros [= H1] [= H2]. rewrite IH by assumption. f_equal.
  rewrite (Z.lxor_comm b c), Z.lxor_assoc, <- (Z.lxor_assoc c c b).
  rewrite Z.lxor_nilpotent, Z.lxor_0_l. reflexivity.
Qed.

Lemma zip_lxor_swap (d k1 k2 : list Z) :
  zip_with Z.lxor (zip_with Z.lxor d k1) k2
  = zip_with Z.lxor (zip_with Z.lxor d k2) k1.
Proof.
  revert k1 k2. induction d as [|a d IH]; intros [|b k1] [|c k2]; cbn;
    try reflexivity.
  rewrite IH. f_equal.
  rewrite !Z.lxor_assoc, (Z.lxor_comm b c). reflexivity.
Qed.

Lemma is_bytes_take (n : nat) (l : list Z) :
  is_bytes l = true -> is_bytes (take n l) = true.
Proof.
  revert n. induction l as [|b l IH]; intros [|n]; cbn; try reflexivity.
  rewrite !andb_true_iff. intros [Hb Hl]. auto.
Qed.

Lemma zip_lxor_take_app (d1 d2 k : list Z) :
  zip_with Z.lxor d1 (take (length d1) k)
  = take (length d1) (zip_with Z.lxor (d1 ++ d2) k).
Proof.
  revert k. induction d1 as [|a d1 IH]; intros [|b k]; cbn;
    try reflexivity.
  rewrite IH. reflexivity.
Qed.

Section TransformAlgebra.

Variable libm_exp : float -> float.
Variable libm_pow2 : float -> float.

(** What a returned transform was made of: the keystream for the length of
    the data, both sequences of bytes. *)
Lemma xor_transform_inv (d c : list Z) (x0 alpha beta : float) :
  xor_transform libm_exp libm_pow2 d x0 alpha beta = Ok c ->
  exists ks,
    gauss_map_keygen libm_exp libm_pow2 (Z.of_nat (length d))
      x0 alpha beta = Ok ks /\
    length ks = length d /\ is_bytes ks = true /\
    c = zip_with Z.lxor d ks /\ is_bytes c = true /\ is_bytes d = true.
Proof.
  unfold xor_transform. intros H. inv_bind H. rename a into ks.
  unfold bytes_of in H.
  destruct (is_bytes (zip_with Z.lxor d ks)) eqn:Hc; [| discriminate].
  injection H as <-.
  pose proof (keygen_Ok _ _ _ _ _ _ _ Ha) as (_ & Hlen & Hk & _).
  rewrite Nat2Z.id in Hlen.
  exists ks. repeat split; auto.
  rewrite <- (zip_lxor_cancel d ks) by lia.
  apply is_bytes_zip_lxor; assumption.
Qed.

(** Known plaintext: the XOR of the input and the output of a transform is
    the keystream of the parameters, whatever the data. *)
Theorem xor_transform_reveals_keystream (d c : list Z)
    (x0 alpha beta : float) :
  xor_transform libm_exp libm_pow2 d x0 alpha beta = Ok c ->
  gauss_map_keygen libm_exp libm_pow2 (Z.of_nat (length d)) x0 alpha beta
  = Ok (zip_with Z.lxor d c).
Proof.
  intros H. apply xor_transform_inv in H as (ks & Hk & Hlen & _ & -> & _).
  rewrite zip_lxor_cancel_l by lia. exact Hk.
Qed.

(** Keystream reuse: two inputs of the same length transformed with the same
    parameters give outputs whose XOR is the XOR of the inputs. *)
Theorem xor_transform_same_key (d1 d2 c1 c2 : list Z)
    (x0 alpha beta : float) :
  length d1 = length d2 ->
  xor_transform libm_exp libm_pow2 d1 x0 alpha beta = Ok c1 ->
  xor_transform libm_exp libm_pow2 d2 x0 alpha beta = Ok c2 ->
  zip_with Z.lxor c1 c2 = zip_with Z.lxor d1 d2.
Proof.
  intros Hlen H1 H2.
  apply xor_transform_inv in H1 as (k1 & Hk1 & Hl1 & _ & -> & _).
  apply xor_transform_inv in H2 as (k2 & Hk2 & Hl2 & _ & -> & _).
  rewrite Hlen, Hk2 in Hk1. injection Hk1 as <-.
  apply zip_lxor_same_key; lia.
Qed.

(** Malleability: flipping bits of the input flips the same bits of the
    output. *)
Theorem xor_transform_malleable (d c delta : list Z)
    (x0 alpha beta : float) :
  is_bytes delta = true -> length delta = length d ->
  xor_transform libm_exp libm_pow2 d x0 alpha beta = Ok c ->
  xor_transform libm_exp libm_pow2 (zip_with Z.lxor d delta) x0 alpha beta
  = Ok (zip_with Z.lxor c delta).
Proof.
  intros Hdelta Hlen H.
  apply xor_transform_inv in H as (ks & Hk & Hl & Hks & -> & Hc & Hd).
  unfold xor_transform.
  rewrite length_zip_with, Hlen, Nat.min_id, Hk. cbn.
  rewrite (zip_lxor_swap d delta ks). unfold bytes_of.
  rewrite is_bytes_zip_lxor by assumption. reflexivity.
Qed.

(** Two transforms with different parameters commute. *)
Theorem xor_transform_commute (d a b : list Z)
    (x1 alpha1 beta1 x2 alpha2 beta2 : float) :
  xor_transform libm_exp libm_pow2 d x1 alpha1 beta1 = Ok a ->
  xor_transform libm_exp libm_pow2 a x2 alpha2 beta2 = Ok b ->
  exists a',
    xor_transform libm_exp libm_pow2 d x2 alpha2 beta2 = Ok a' /\
    xor_transform libm_exp libm_pow2 a' x1 alpha1 beta1 = Ok b.
Proof.
  intros H1 H2.
  apply xor_transform_inv in H1 as (k1 & Hk1 & Hl1 & Hb1 & -> & Ha & Hd).
  apply xor_transform_inv in H2 as (k2 & Hk2 & Hl2 & Hb2 & -> & Hb & _).
  assert (Hla : length (zip_with Z.lxor d k1) = length d)
    by (rewrite length_zip_with; lia).
  rewrite Hla in Hk2, Hl2.
  exists (zip_with Z.lxor d k2). unfold xor_transform.
  rewrite Hk2. cbn. unfold bytes_of.
  rewrite is_bytes_zip_lxor by assumption. split; [reflexivity |].
  rewrite length_zip_with, Hl2, Nat.min_id, Hk1. cbn.
  rewrite (zip_lxor_swap d k2 k1), Hb. reflexivity.
Qed.

(** The transform of the beginning of the data is the beginning of the
    transform of the data. *)
Theorem xor_transform_prefix (d1 d2 c : list Z) (x0 alpha beta : float) :
  xor_transform libm_exp libm_pow2 (d1 ++ d2) x0 alpha beta = Ok c ->
  xor_transform libm_exp libm_pow2 d1 x0 alpha beta
  = Ok (take (length d1) c).
Proof.
  intros H. apply xor_transform_inv in H as (ks & Hk & Hl & Hks & -> & Hc & _).
  rewrite length_app in Hk, Hl.
  assert (Hn : 0 <= Z.of_nat (length d1)
               <= Z.of_nat (length d1 + length d2)) by lia.
  assert (Hok : is_ok (gauss_map_keygen libm_exp libm_pow2
                         (Z.of_nat (length d1)) x0 alpha beta) = true).
  { apply (keygen_shorter_ok _ _ _ _ _ _ _ Hn). rewrite Hk. reflexivity. }
  apply is_ok_true in Hok as [k1 Hk1].
  pose proof (keygen_Ok _ _ _ _ _ _ _ Hk1) as (_ & Hl1 & _).
  rewrite Nat2Z.id in Hl1.
  assert (Hk1' : k1 = take (length d1) ks).
  { apply list_eq. intros j.
    destruct (Nat.lt_ge_cases j (length d1)) as [Hj | Hj].
    - rewrite lookup_take_lt by exact Hj.
      apply (keygen_lookup_agree _ _ _ _ _ _ _ _ _ j Hk1 Hk); lia.
    - rewrite lookup_take_ge by exact Hj. apply lookup_ge_None. lia. }
  unfold xor_transform. rewrite Hk1. cbn. subst k1.
  rewrite zip_lxor_take_app with (d2 := d2). unfold bytes_of.
  rewrite is_bytes_take by exact Hc. reflexivity.
Qed.

(** The negated seed gives the same transform. *)
Lemma xor_transform_opp (d : list Z) (x0 alpha beta : float) :
  xor_transform libm_exp libm_pow2 d (F64.opp x0) alpha beta
  = xor_transform libm_exp libm_pow2 d x0 alpha beta.
Proof.
  unfold xor_transform, gauss_map_keygen, range.
  destruct (bytearray _) as [key|e]; [| reflexivity].
  destruct (Z.to_nat _) as [|m]; [reflexivity |].
  cbn [seq loop mbind result_bind]. unfold body.
  rewrite gauss_update_opp. reflexivity.
Qed.

(** Applying the transform to its own output gives the input back. *)
Lemma xor_transform_back (d c : list Z) (x0 alpha beta : float) :
  xor_transform libm_exp libm_pow2 d x0 alpha beta = Ok c ->
  xor_transform libm_exp libm_pow2 c x0 alpha beta = Ok d.
Proof.
  intros H.
  pose proof (xor_transform_inv _ _ _ _ _ H) as (ks & Hk & _ & _ & _ & _ & Hd).
  pose proof (xor_transform_twice libm_exp libm_pow2 d x0 alpha beta Hd) as Ht.
  rewrite H in Ht. apply Ht. rewrite Hk. reflexivity.
Qed.

End TransformAlgebra.

(* ===================================================================== *)
(** ** Properties of [chaotic_encrypt_decrypt] on files                   *)
(* ===================================================================== *)

Section FileProperties.

Variable libm_exp : float -> float.
Variable libm_pow2 : float -> float.
Variable sys : os.

(** The causes of a failure of a call on files, in the order the program
    meets them: the input cannot be opened, the input file is not there, the
    transform raises, the output cannot be opened. *)
Lemma cipher_file_Raise (fs : files) (inp out : string)
    (x0 alpha beta : float) (e : exn) :
  chaotic_encrypt_decrypt libm_exp libm_pow2 sys fs inp out x0 alpha beta
    = Raise e ->
  open_rb_error sys inp = Some e \/
  (open_rb_error sys inp = None /\ fs !! inp = None /\
   e = FileNotFoundError) \/
  (exists d, open_rb_error sys inp = None /\ fs !! inp = Some d /\
     xor_transform libm_exp libm_pow2 d x0 alpha beta = Raise e /\
     (e = OverflowError \/ e = ValueError)) \/
  (exists d c, open_rb_error sys inp = None /\ fs !! inp = Some d /\
     xor_transform libm_exp libm_pow2 d x0 alpha beta = Ok c /\
     open_wb_error sys out = Some e).
Proof.
  unfold chaotic_encrypt_decrypt, read_file, write_file.
  destruct (open_rb_error sys inp) as [e1|]; cbn; [intros [= <-]; auto |].
  destruct (fs !! inp) as [d|]; cbn; [| intros [= <-]; auto].
  destruct (xor_transform libm_exp libm_pow2 d x0 alpha beta) as [c|e1]
    eqn:Hc; cbn.
  - destruct (open_wb_error sys out) as [e2|] eqn:Hw; [| discriminate].
    intros [= <-]. right. right. right. exists d, c. auto.
  - intros [= <-]. right. right. left. exists d. repeat split; auto.
    unfold xor_transform in Hc.
    apply bind_Raise in Hc as [Hc | (ks & _ & Hc)].
    + eapply keygen_Raise, Hc.
    + unfold bytes_of in Hc. destruct (is_bytes _); [discriminate |].
      injection Hc as <-. auto.
Qed.


(** A returned call leaves every file but the output file as it was, and the
    output file holds as many bytes as the input file. *)
Theorem cipher_file_frame (fs fs' : files) (inp out : string)
    (x0 alpha beta : float) :
  chaotic_encrypt_decrypt libm_exp libm_pow2 sys fs inp out x0 alpha beta
    = Ok fs' ->
  (forall q, q <> out -> fs' !! q = fs !! q) /\
  exists d c, fs !! inp = Some d /\ fs' !! out = Some c /\
              length c = length d /\ is_bytes c = true.
Proof.
  intros H.
  apply cipher_file_inv in H as (d & c & _ & Hd & Hc & _ & ->).
  split.
  - intros q Hq. apply lookup_insert_ne. congruence.
  - exists d, c.
    apply xor_transform_inv in Hc as (ks & _ & Hl & _ & -> & Hb & _).
    repeat split; [exact Hd | apply lookup_insert_eq | | exact Hb].
    rewrite length_zip_with. lia.
Qed.


(** In place: two calls with the same parameters on one path, input and
    output alike, restore the whole file system. *)
Theorem cipher_file_in_place_twice (fs fs1 : files) (path : string)
    (x0 alpha beta : float) :
  chaotic_encrypt_decrypt libm_exp libm_pow2 sys fs path path
    x0 alpha beta = Ok fs1 ->
  chaotic_encrypt_decrypt libm_exp libm_pow2 sys fs1 path path
    x0 alpha beta = Ok fs.
Proof.
  intros H.
  apply cipher_file_inv in H as (d & c & Hr & Hd & Hc & Hw & ->).
  unfold chaotic_encrypt_decrypt, read_file, write_file.
  rewrite Hr, lookup_insert_eq. cbn.
  rewrite (xor_transform_back _ _ _ _ _ _ _ Hc). cbn. rewrite Hw.
  rewrite insert_insert_eq, insert_id by exact Hd. reflexivity.
Qed.


End FileProperties.

(* ===================================================================== *)
(** ** Properties of [main]                                               *)
(* ===================================================================== *)

(** The guard on the seed lets through finite numbers only: NaN and the
    infinities fail one of the two comparisons. *)
Lemma x0_in_range_finite (v : float) :
  x0_in_range v = true -> F64.is_finite v = true.
Proof.
  destruct v as [s|s| |s m e]; try reflexivity; [destruct s |];
    vm_compute; discriminate.
Qed.

Section MainProperties.

Variable libm_exp : float -> float.
Variable libm_pow2 : float -> float.
Variable sys : os.
Variable str_strip : string -> string.
Variable str_lower : string -> string.
Variable py_float : string -> option float.

Local Abbreviation run_body :=
  (main_body libm_exp libm_pow2 sys str_strip py_float).
Local Abbreviation run_main :=
  (main libm_exp libm_pow2 sys str_strip str_lower py_float).
Local Abbreviation cipher :=
  (chaotic_encrypt_decrypt libm_exp libm_pow2 sys).
Local Abbreviation answers := (accepted str_strip str_lower py_float).

(** Unfolds the steps of [main] on a world given by its three fields. *)
Ltac io_unfold :=
  unfold main, main_body, read_float, call_cipher, input, print, write,
    mbind, io_bind, mret, io_ret;
  cbn -[x0_in_range mode_ok chaotic_encrypt_decrypt].

Ltac io_next := cbn -[x0_in_range mode_ok chaotic_encrypt_decrypt].

(** The same for the first lines of [main], up to the check of the mode. *)
Ltac io_unfold_main :=
  unfold main, input, print, write, mbind, io_bind;
  cbn -[mode_ok main_body].

Ltac io_next_main := cbn -[mode_ok main_body].

(** A session stopped by the end of the input. *)
Ltac io_eof :=
  intros [= <- <-]; left; repeat split; cbn; lia.

(** A session stopped by a refusal. *)
Ltac io_refused :=
  intros [= <- <-]; right; left; split; reflexivity.

(** The three ways the lines after the mode can go: the input ends too
    early; an answer is refused; or the answers are accepted and the call is
    made with the paths and numbers typed. *)
Lemma main_body_cases (mode : string) (ins : list string)
    (outs : list output) (fs : files) (r : io_result unit) (w' : world) :
  run_body mode (World ins outs fs) = (r, w') ->
  (r = Uncaught EOFError /\ disk w' = fs /\ (length ins < 5)%nat) \/
  (r = Done tt /\ disk w' = fs) \/
  (exists l1 l2 l3 l4 l5 x0 alpha beta,
     ins = l1 :: l2 :: l3 :: l4 :: l5 :: stdin w' /\
     py_float (str_strip l3) = Some x0 /\
     py_float (str_strip l4) = Some alpha /\
     py_float (str_strip l5) = Some beta /\
     x0_in_range x0 = true /\
     match cipher fs (str_strip l1) (str_strip l2) x0 alpha beta with
     | Ok fs' => r = Done tt /\ disk w' = fs'
     | Raise e => r = Uncaught e /\ disk w' = fs
     end).
Proof.
  io_unfold.
  destruct ins as [|l1 ins]; io_next; [io_eof |].
  destruct ins as [|l2 ins]; io_next; [io_eof |].
  destruct ins as [|l3 ins]; io_next; [io_eof |].
  destruct (py_float (str_strip l3)) as [x0|] eqn:H3; io_next;
    [| io_refused].
  destruct ins as [|l4 ins]; io_next; [io_eof |].
  destruct (py_float (str_strip l4)) as [alpha|] eqn:H4; io_next;
    [| io_refused].
  destruct ins as [|l5 ins]; io_next; [io_eof |].
  destruct (py_float (str_strip l5)) as [beta|] eqn:H5; io_next;
    [| io_refused].
  destruct (x0_in_range x0) eqn:Hr; io_next; [| io_refused].
  intros H. right. right.
  exists l1, l2, l3, l4, l5, x0, alpha, beta.
  destruct (cipher fs (str_strip l1) (str_strip l2) x0 alpha beta)
    as [fs'|e]; cbn -[x0_in_range mode_ok chaotic_encrypt_decrypt] in H;
    injection H as <- <-; cbn; auto 10.
Qed.

Lemma main_cases (w w' : world) (r : io_result unit) :
  run_main w = (r, w') ->
  (r = Uncaught EOFError /\ disk w' = disk w /\
   (length (stdin w) < 6)%nat) \/
  (r = Done tt /\ disk w' = disk w) \/
  (exists l0 l1 l2 l3 l4 l5 x0 alpha beta,
     stdin w = l0 :: l1 :: l2 :: l3 :: l4 :: l5 :: stdin w' /\
     answers l0 l3 l4 l5 x0 alpha beta /\
     match cipher (disk w) (str_strip l1) (str_strip l2) x0 alpha beta with
     | Ok fs' => r = Done tt /\ disk w' = fs'
     | Raise e => r = Uncaught e /\ disk w' = disk w
     end).
Proof.
  destruct w as [ins outs fs]. io_unfold_main.
  destruct ins as [|l0 ins]; io_next_main; [io_eof |].
  destruct (mode_ok (str_lower (str_strip l0))) eqn:Hm; io_next_main;
    [| io_refused].
  intros H. apply main_body_cases in H
    as [(-> & Hd & Hl) | [(-> & Hd) | Hcall]].
  - left. repeat split; [exact Hd | cbn; lia].
  - right. left. auto.
  - right. right.
    destruct Hcall as (l1 & l2 & l3 & l4 & l5 & x0 & alpha & beta
                       & -> & H3 & H4 & H5 & Hr & Hc).
    exists l0, l1, l2, l3, l4, l5, x0, alpha, beta.
    unfold accepted. auto 10.
Qed.




(** The lines after the mode do the same whatever the mode: the same result,
    the same lines read, the same files. *)
Lemma main_body_mode (m1 m2 : string) (ins : list string)
    (outs : list output) (fs : files) :
  (run_body m1 (World ins outs fs)).1 = (run_body m2 (World ins outs fs)).1 /\
  stdin (run_body m1 (World ins outs fs)).2
    = stdin (run_body m2 (World ins outs fs)).2 /\
  disk (run_body m1 (World ins outs fs)).2
    = disk (run_body m2 (World ins outs fs)).2.
Proof.
  io_unfold.
  destruct ins as [|l1 ins]; io_next; [auto |].
  destruct ins as [|l2 ins]; io_next; [auto |].
  destruct ins as [|l3 ins]; io_next; [auto |].
  destruct (py_float (str_strip l3)) as [x0|]; io_next; [| auto].
  destruct ins as [|l4 ins]; io_next; [auto |].
  destruct (py_float (str_strip l4)) as [alpha|]; io_next; [| auto].
  destruct ins as [|l5 ins]; io_next; [auto |].
  destruct (py_float (str_strip l5)) as [beta|]; io_next; [| auto].
  destruct (x0_in_range x0); io_next; [| auto].
  destruct (cipher fs (str_strip l1) (str_strip l2) x0 alpha beta);
    io_next; auto.
Qed.

(** The mode is a label: two sessions that differ only in the accepted mode
    end the same way, read the same lines and leave the same files. *)
Theorem main_mode_is_a_label (l1 l2 : string) (ins : list string)
    (outs : list output) (fs : files) :
  mode_ok (str_lower (str_strip l1)) = true ->
  mode_ok (str_lower (str_strip l2)) = true ->
  (run_main (World (l1 :: ins) outs fs)).1
    = (run_main (World (l2 :: ins) outs fs)).1 /\
  stdin (run_main (World (l1 :: ins) outs fs)).2
    = stdin (run_main (World (l2 :: ins) outs fs)).2 /\
  disk (run_main (World (l1 :: ins) outs fs)).2
    = disk (run_main (World (l2 :: ins) outs fs)).2.
Proof.
  intros H1 H2. io_unfold_main. rewrite H1, H2. io_next_main.
  apply main_body_mode.
Qed.

(** A session whose answers are accepted is the call on the files. *)
Lemma main_accepted (l0 l1 l2 l3 l4 l5 : string) (ins : list string)
    (outs : list output) (fs : files) (x0 alpha beta : float) :
  mode_ok (str_lower (str_strip l0)) = true ->
  py_float (str_strip l3) = Some x0 ->
  py_float (str_strip l4) = Some alpha ->
  py_float (str_strip l5) = Some beta ->
  x0_in_range x0 = true ->
  ((run_main (World (l0 :: l1 :: l2 :: l3 :: l4 :: l5 :: ins) outs fs)).1,
   disk (run_main
           (World (l0 :: l1 :: l2 :: l3 :: l4 :: l5 :: ins) outs fs)).2)
  = match cipher fs (str_strip l1) (str_strip l2) x0 alpha beta with
    | Ok fs' => (Done tt, fs')
    | Raise e => (Uncaught e, fs)
    end.
Proof.
  intros Hm H3 H4 H5 Hr. io_unfold_main. rewrite Hm. io_next_main.
  io_unfold. rewrite H3. io_next. rewrite H4. io_next. rewrite H5. io_next.
  rewrite Hr. io_next.
  destruct (cipher fs (str_strip l1) (str_strip l2) x0 alpha beta);
    reflexivity.
Qed.


End MainProperties.

(* ===================================================================== *)
(** ** The further theorems at concrete inputs                            *)
(* ===================================================================== *)

Lemma keygen_prefix_witness :
  0 <= 2 <= 5 /\
  gauss_map_keygen RefLibm.exp RefLibm.pow2 5 Lit.f0_1 Lit.f4_9 Lit.f0_2
    = Ok [19; 153; 2; 154; 1] /\
  gauss_map_keygen RefLibm.exp RefLibm.pow2 2 Lit.f0_1 Lit.f4_9 Lit.f0_2
    = Ok (take (Z.to_nat 2) [19; 153; 2; 154; 1]).
Proof.
  split; [lia |]. split; [vm_compute; reflexivity |].
  apply (keygen_prefix RefLibm.exp RefLibm.pow2 Lit.f0_1 Lit.f4_9 Lit.f0_2
           2 5); [lia | vm_compute; reflexivity].
Defined.

Lemma keygen_raise_persists_witness :
  0 <= 1 <= 3 /\
  gauss_map_keygen RefLibm.exp RefLibm.pow2 1 Lit.f0_1 Lit.f4_9 Lit.f1e308
    = Raise OverflowError /\
  gauss_map_keygen RefLibm.exp RefLibm.pow2 3 Lit.f0_1 Lit.f4_9 Lit.f1e308
    = Raise OverflowError.
Proof.
  split; [lia |]. split; [vm_compute; reflexivity |].
  apply (keygen_raise_persists RefLibm.exp RefLibm.pow2
           Lit.f0_1 Lit.f4_9 Lit.f1e308 1 3);
    [lia | vm_compute; reflexivity].
Defined.

Lemma xor_transform_reveals_keystream_witness :
  xor_transform RefLibm.exp RefLibm.pow2 [0; 255; 66]
    Lit.f0_1 Lit.f4_9 Lit.f0_2 = Ok [19; 102; 64] /\
  gauss_map_keygen RefLibm.exp RefLibm.pow2 (Z.of_nat (length [0; 255; 66]))
    Lit.f0_1 Lit.f4_9 Lit.f0_2
  = Ok (zip_with Z.lxor [0; 255; 66] [19; 102; 64]).
Proof.
  split; [vm_compute; reflexivity |].
  apply (xor_transform_reveals_keystream RefLibm.exp RefLibm.pow2).
  vm_compute. reflexivity.
Defined.

Lemma xor_transform_same_key_witness :
  xor_transform RefLibm.exp RefLibm.pow2 [0; 255; 66]
    Lit.f0_1 Lit.f4_9 Lit.f0_2 = Ok [19; 102; 64] /\
  xor_transform RefLibm.exp RefLibm.pow2 [1; 2; 3]
    Lit.f0_1 Lit.f4_9 Lit.f0_2 = Ok [18; 155; 1] /\
  zip_with Z.lxor [19; 102; 64] [18; 155; 1]
  = zip_with Z.lxor [0; 255; 66] [1; 2; 3].
Proof.
  split; [vm_compute; reflexivity |]. split; [vm_compute; reflexivity |].
  apply (xor_transform_same_key RefLibm.exp RefLibm.pow2
           [0; 255; 66] [1; 2; 3] [19; 102; 64] [18; 155; 1]
           Lit.f0_1 Lit.f4_9 Lit.f0_2);
    [reflexivity | vm_compute; reflexivity | vm_compute; reflexivity].
Defined.

Lemma xor_transform_malleable_witness :
  is_bytes [1; 0; 128] = true /\
  xor_transform RefLibm.exp RefLibm.pow2 [0; 255; 66]
    Lit.f0_1 Lit.f4_9 Lit.f0_2 = Ok [19; 102; 64] /\
  xor_transform RefLibm.exp RefLibm.pow2
    (zip_with Z.lxor [0; 255; 66] [1; 0; 128]) Lit.f0_1 Lit.f4_9 Lit.f0_2
  = Ok (zip_with Z.lxor [19; 102; 64] [1; 0; 128]).
Proof.
  split; [reflexivity |]. split; [vm_compute; reflexivity |].
  apply (xor_transform_malleable RefLibm.exp RefLibm.pow2);
    [reflexivity | reflexivity | vm_compute; reflexivity].
Defined.

Lemma xor_transform_commute_witness :
  xor_transform RefLibm.exp RefLibm.pow2 [0; 255; 66]
    Lit.f0_1 Lit.f4_9 Lit.f0_2 = Ok [19; 102; 64] /\
  xor_transform RefLibm.exp RefLibm.pow2 [19; 102; 64]
    Lit.f0_2 Lit.f4_9 Lit.f0_1 = Ok [229; 232; 68] /\
  exists a',
    xor_transform RefLibm.exp RefLibm.pow2 [0; 255; 66]
      Lit.f0_2 Lit.f4_9 Lit.f0_1 = Ok a' /\
    xor_transform RefLibm.exp RefLibm.pow2 a'
      Lit.f0_1 Lit.f4_9 Lit.f0_2 = Ok [229; 232; 68].
Proof.
  split; [vm_compute; reflexivity |]. split; [vm_compute; reflexivity |].
  apply (xor_transform_commute RefLibm.exp RefLibm.pow2
           [0; 255; 66] [19; 102; 64] [229; 232; 68]
           Lit.f0_1 Lit.f4_9 Lit.f0_2 Lit.f0_2 Lit.f4_9 Lit.f0_1);
    vm_compute; reflexivity.
Defined.

Lemma xor_transform_prefix_witness :
  xor_transform RefLibm.exp RefLibm.pow2 ([0; 255] ++ [66])
    Lit.f0_1 Lit.f4_9 Lit.f0_2 = Ok [19; 102; 64] /\
  xor_transform RefLibm.exp RefLibm.pow2 [0; 255]
    Lit.f0_1 Lit.f4_9 Lit.f0_2
  = Ok (take (length [0; 255]) [19; 102; 64]).
Proof.
  split; [vm_compute; reflexivity |].
  apply (xor_transform_prefix RefLibm.exp RefLibm.pow2 [0; 255] [66]).
  vm_compute. reflexivity.
Defined.


Lemma cipher_file_frame_witness :
  chaotic_encrypt_decrypt RefLibm.exp RefLibm.pow2 Demo.sys0 Demo.fs0
    "a.bin" "b.bin" Lit.f0_1 Lit.f4_9 Lit.f0_2
  = Ok (<["b.bin"%string := [19; 102; 64]]> Demo.fs0) /\
  (<["b.bin"%string := [19; 102; 64]]> Demo.fs0) !! "a.bin"%string
  = Demo.fs0 !! "a.bin"%string.
Proof.
  assert (H : chaotic_encrypt_decrypt RefLibm.exp RefLibm.pow2 Demo.sys0
                Demo.fs0 "a.bin" "b.bin" Lit.f0_1 Lit.f4_9 Lit.f0_2
              = Ok (<["b.bin"%string := [19; 102; 64]]> Demo.fs0))
    by (vm_compute; reflexivity).
  split; [exact H |].
  destruct (cipher_file_frame RefLibm.exp RefLibm.pow2 Demo.sys0
              _ _ _ _ _ _ _ H)
    as (Hframe & _).
  apply Hframe. discriminate.
Defined.


Lemma cipher_file_in_place_twice_witness :
  chaotic_encrypt_decrypt RefLibm.exp RefLibm.pow2 Demo.sys0 Demo.fs0
    "a.bin" "a.bin" Lit.f0_1 Lit.f4_9 Lit.f0_2
  = Ok (<["a.bin"%string := [19; 102; 64]]> Demo.fs0) /\
  chaotic_encrypt_decrypt RefLibm.exp RefLibm.pow2 Demo.sys0
    (<["a.bin"%string := [19; 102; 64]]> Demo.fs0)
    "a.bin" "a.bin" Lit.f0_1 Lit.f4_9 Lit.f0_2
  = Ok Demo.fs0.
Proof.
  split; [vm_compute; reflexivity |].
  apply (cipher_file_in_place_twice RefLibm.exp RefLibm.pow2 Demo.sys0
           Demo.fs0).
  vm_compute. reflexivity.
Defined.





Lemma main_mode_is_a_label_witness :
  (Demo.run Demo.encrypt_session).1 = Done tt /\
  (Demo.run Demo.encrypt_session).1 = (Demo.run Demo.decrypt_label_session).1
  /\ stdin (Demo.run Demo.encrypt_session).2
     = stdin (Demo.run Demo.decrypt_label_session).2
  /\ disk (Demo.run Demo.encrypt_session).2
     = disk (Demo.run Demo.decrypt_label_session).2.
Proof.
  split; [vm_compute; reflexivity |].
  apply (main_mode_is_a_label RefLibm.exp RefLibm.pow2 Demo.sys0
           RefPy.strip RefPy.lower RefPy.float_of " Encrypt " "decrypt");
    vm_compute; reflexivity.
Defined.


Lemma keygen_raise_cause_witness :
  0 <= 1 /\
  gauss_map_keygen RefLibm.exp RefLibm.pow2 1 S754_nan Lit.f4_9 Lit.f0_2
    = Raise ValueError /\
  ((ValueError = OverflowError /\
    float_pow2 RefLibm.pow2 S754_nan = Raise OverflowError) \/
   (exists k x, (k < Z.to_nat 1)%nat /\
      orbit RefLibm.exp RefLibm.pow2 Lit.f4_9 Lit.f0_2 S754_nan (S k)
        = Ok x /\
      ((ValueError = OverflowError /\
        F64.is_inf (value (scaled x)) = true) \/
       (ValueError = ValueError /\ value (scaled x) = S754_nan)))).
Proof.
  split; [lia |]. split; [vm_compute; reflexivity |].
  apply (keygen_raise_cause RefLibm.exp RefLibm.pow2 Lit.f4_9 Lit.f0_2
           1 S754_nan ValueError); [lia | vm_compute; reflexivity].
Defined.
